(** * Task engine: requirement evaluation and task life cycle

    Shallow embedding of [src/types.ts] and [src/services/taskEngine.ts],
    with the task-list updaters of the application shell and the clock
    of the task runner.

    Conventions of the embedding.
    - An optional property [f?: T] is a field of type [option T]; [None] stands
      for a property that is absent or [undefined] (the engine reads such
      properties only through truthiness tests, [??] and [!== undefined], and
      the JSON round trip of [cloneTask] drops [undefined] properties).
    - JavaScript numbers are the finite integer-valued doubles, taken in [Z]:
      the engine compares them and tests them for zero; the one sum, in
      [tickTask], is the exact sum rounded to the nearest double
      ([numberAdd]). The task runner, the only caller of [tickTask], passes
      the default increment 1.
    - [Date.now()] is an explicit argument [now].
    - [evaluateRequirement] mutates the node it is given, and the sibling array
      it searches holds those same objects; the sibling pass is therefore
      modelled with an explicit split of the array into the part already
      rewritten and the part still to visit ([mapInPlace]). *)

From Stdlib Require Import List ZArith String Ascii DecimalString Bool Lia.
Import ListNotations.
Local Open Scope string_scope.
Local Open Scope list_scope.
Local Open Scope Z_scope.

(** ** Data model ([src/types.ts]) *)

Inductive TaskStatus : Type :=
| IDLE | RUNNING | PAUSED | COMPLETED | FAILED | CANCELLED | LOCKED.

Inductive RequirementType : Type :=
| BOOLEAN | NUMERIC | GROUP.

Local Unset Elimination Schemes.

(** [Record<string, any>] restricted to what survives [JSON.stringify]. *)
Inductive Json : Type :=
| JNull
| JBool (b : bool)
| JNum (z : Z)
| JStr (s : string)
| JArr (xs : list Json)
| JObj (kvs : list (string * Json)).

Inductive Requirement : Type := mkRequirement {
  id : string;
  type : RequirementType;
  title : string;
  description : option string;
  isOptional : option bool;
  xorGroup : option string;
  currentValue : option Z;
  targetValue : option Z;
  children : option (list Requirement);
  isFulfilled : bool;
  isDisabled : option bool;
  valueLimit : option Z;
  customData : option Json
}.

Local Set Elimination Schemes.

Record Task : Type := mkTask {
  taskId : string;
  taskTitle : string;
  taskDescription : string;
  status : TaskStatus;
  requirements : list Requirement;
  timeLimit : option Z;
  elapsedTime : Z;
  createdAt : Z;
  updatedAt : Z;
  isLocked : option bool;
  taskCustomData : option Json
}.

Definition TaskStatus_eqb (a b : TaskStatus) : bool :=
  match a, b with
  | IDLE, IDLE | RUNNING, RUNNING | PAUSED, PAUSED | COMPLETED, COMPLETED
  | FAILED, FAILED | CANCELLED, CANCELLED | LOCKED, LOCKED => true
  | _, _ => false
  end.

(** *** Field assignment *)

Definition set_isFulfilled (req : Requirement) (v : bool) : Requirement :=
  mkRequirement (id req) (type req) (title req) (description req)
    (isOptional req) (xorGroup req) (currentValue req) (targetValue req)
    (children req) v (isDisabled req) (valueLimit req) (customData req).

Definition set_isDisabled (req : Requirement) (v : option bool) : Requirement :=
  mkRequirement (id req) (type req) (title req) (description req)
    (isOptional req) (xorGroup req) (currentValue req) (targetValue req)
    (children req) (isFulfilled req) v (valueLimit req) (customData req).

Definition set_currentValue (req : Requirement) (v : option Z) : Requirement :=
  mkRequirement (id req) (type req) (title req) (description req)
    (isOptional req) (xorGroup req) v (targetValue req)
    (children req) (isFulfilled req) (isDisabled req) (valueLimit req)
    (customData req).

Definition set_children (req : Requirement) (v : option (list Requirement))
  : Requirement :=
  mkRequirement (id req) (type req) (title req) (description req)
    (isOptional req) (xorGroup req) (currentValue req) (targetValue req)
    v (isFulfilled req) (isDisabled req) (valueLimit req) (customData req).

Definition set_status (t : Task) (s : TaskStatus) : Task :=
  mkTask (taskId t) (taskTitle t) (taskDescription t) s (requirements t)
    (timeLimit t) (elapsedTime t) (createdAt t) (updatedAt t) (isLocked t)
    (taskCustomData t).

Definition set_requirements (t : Task) (rs : list Requirement) : Task :=
  mkTask (taskId t) (taskTitle t) (taskDescription t) (status t) rs
    (timeLimit t) (elapsedTime t) (createdAt t) (updatedAt t) (isLocked t)
    (taskCustomData t).

Definition set_elapsedTime (t : Task) (e : Z) : Task :=
  mkTask (taskId t) (taskTitle t) (taskDescription t) (status t)
    (requirements t) (timeLimit t) e (createdAt t) (updatedAt t) (isLocked t)
    (taskCustomData t).

Definition set_updatedAt (t : Task) (u : Z) : Task :=
  mkTask (taskId t) (taskTitle t) (taskDescription t) (status t)
    (requirements t) (timeLimit t) (elapsedTime t) (createdAt t) u (isLocked t)
    (taskCustomData t).

(** *** JavaScript truthiness and defaults *)

(** A string property is truthy when present and not empty. *)
Definition truthyString (o : option string) : bool :=
  match o with
  | Some s => negb (String.eqb s "")
  | None => false
  end.

(** A boolean property is truthy when present and [true]. *)
Definition truthyBool (o : option bool) : bool :=
  match o with
  | Some b => b
  | None => false
  end.

(** A number property is truthy when present and not zero. *)
Definition truthyNumber (o : option Z) : bool :=
  match o with
  | Some z => negb (z =? 0)
  | None => false
  end.

(** [a ?? d] *)
Definition orDefault (o : option Z) (d : Z) : Z :=
  match o with
  | Some z => z
  | None => d
  end.

(** [a === b] on optional strings. *)
Definition strictEqString (a b : option string) : bool :=
  match a, b with
  | Some x, Some y => String.eqb x y
  | None, None => true
  | _, _ => false
  end.

(** ** The engine ([src/services/taskEngine.ts]) *)

(** [JSON.parse(JSON.stringify(task))]: on the embedded data the round trip
    rebuilds the same value. *)
Definition cloneTask (task : Task) : Task := task.

(** The predicate of [allSiblings.find] in [evaluateRequirement]. *)
Definition isXorWinnerOver (req s : Requirement) : bool :=
  negb (String.eqb (id s) (id req))
  && strictEqString (xorGroup s) (xorGroup req)
  && isFulfilled s.

Definition xorWinner (req : Requirement) (allSiblings : list Requirement)
  : option Requirement :=
  find (isXorWinnerOver req) allSiblings.

(** [arr.map(x => f(x, arr))] where [f] rewrites [x] in place and returns it:
    when the element at some position is visited, the array holds the results
    for the earlier positions and the untouched later elements. *)
Definition mapInPlace (f : Requirement -> list Requirement -> Requirement)
  : list Requirement -> list Requirement -> list Requirement :=
  fix go (done todo : list Requirement) {struct todo} : list Requirement :=
    match todo with
    | [] => []
    | r :: rest =>
        let r' := f r (done ++ r :: rest) in
        r' :: go (done ++ [r']) rest
    end.

(** The NUMERIC branch (lines 35-51). *)
Definition evaluateNumeric (req : Requirement) : Requirement :=
  let current := orDefault (currentValue req) 0 in
  let target := orDefault (targetValue req) 1 in
  let req := set_isFulfilled req (target <=? current) in
  match valueLimit req with
  | Some limit =>
      if limit <? current
      then set_isDisabled (set_isFulfilled req false) (Some true)
      else req
  | None => req
  end.

(** Fulfilment of a group from its (already evaluated) children
    (lines 67-74). *)
Definition groupFulfilled (cs : list Requirement) : bool :=
  let relevantChildren := filter (fun c => negb (truthyBool (isOptional c))) cs in
  match relevantChildren with
  | [] => true
  | _ => forallb isFulfilled relevantChildren
  end.

(** Step 1 of [evaluateRequirement] (lines 18-29): the node after the XOR
    check, and whether the function returns at line 25. *)
Definition xorStep (req : Requirement) (allSiblings : list Requirement)
  : Requirement * bool :=
  if truthyString (xorGroup req) then
    match xorWinner req allSiblings with
    | Some _ => (set_isFulfilled (set_isDisabled req (Some true)) false, true)
    | None => (set_isDisabled req (Some false), false)
    end
  else (req, false).

Fixpoint evaluateRequirement (req : Requirement) (allSiblings : list Requirement)
  {struct req} : Requirement :=
  (* 1. XOR locks *)
  let (req1, locked) := xorStep req allSiblings in
  if locked then req1
  else
    (* 2. logic by type *)
    match type req with
    | BOOLEAN => req1
    | NUMERIC => evaluateNumeric req1
    | GROUP =>
        match children req with
        | Some (c :: cs) =>
            let kids := mapInPlace evaluateRequirement [] (c :: cs) in
            set_isFulfilled (set_children req1 (Some kids)) (groupFulfilled kids)
        | _ => set_isFulfilled req1 true
        end
    end.

(** The task-completion test (lines 112-113). *)
Definition allRelevantFulfilled (rs : list Requirement) : bool :=
  forallb isFulfilled (filter (fun r => negb (truthyBool (isOptional r))) rs).

Definition evaluateTaskState (task : Task) (now : Z) : Task :=
  let newTask := cloneTask task in
  (* 1. time limit *)
  let newTask :=
    if truthyNumber (timeLimit newTask)
       && (orDefault (timeLimit newTask) 0 <=? elapsedTime newTask)
    then
      if TaskStatus_eqb (status newTask) RUNNING
      then set_status newTask FAILED
      else newTask
    else newTask in
  if TaskStatus_eqb (status newTask) IDLE
     || TaskStatus_eqb (status newTask) LOCKED
  then newTask
  else
    (* 2. requirement tree *)
    let newTask :=
      set_requirements newTask
        (mapInPlace evaluateRequirement [] (requirements newTask)) in
    (* 3. completion *)
    let allFulfilled := allRelevantFulfilled (requirements newTask) in
    let newTask :=
      if allFulfilled && TaskStatus_eqb (status newTask) RUNNING
      then set_status newTask COMPLETED
      else newTask in
    set_updatedAt newTask now.

(** [Partial<Requirement>]: every property may be left out ([None]); an
    optional property that is given may be given as [undefined]. *)
Record RequirementUpdates : Type := mkUpdates {
  u_id : option string;
  u_type : option RequirementType;
  u_title : option string;
  u_description : option (option string);
  u_isOptional : option (option bool);
  u_xorGroup : option (option string);
  u_currentValue : option (option Z);
  u_targetValue : option (option Z);
  u_children : option (option (list Requirement));
  u_isFulfilled : option bool;
  u_isDisabled : option (option bool);
  u_valueLimit : option (option Z);
  u_customData : option (option Json)
}.

Definition overwrite {A : Type} (old : A) (upd : option A) : A :=
  match upd with
  | Some v => v
  | None => old
  end.

(** [{ ...req, ...updates }] *)
Definition applyUpdates (req : Requirement) (updates : RequirementUpdates)
  : Requirement :=
  mkRequirement
    (overwrite (id req) (u_id updates))
    (overwrite (type req) (u_type updates))
    (overwrite (title req) (u_title updates))
    (overwrite (description req) (u_description updates))
    (overwrite (isOptional req) (u_isOptional updates))
    (overwrite (xorGroup req) (u_xorGroup updates))
    (overwrite (currentValue req) (u_currentValue updates))
    (overwrite (targetValue req) (u_targetValue updates))
    (overwrite (children req) (u_children updates))
    (overwrite (isFulfilled req) (u_isFulfilled updates))
    (overwrite (isDisabled req) (u_isDisabled updates))
    (overwrite (valueLimit req) (u_valueLimit updates))
    (overwrite (customData req) (u_customData updates)).

(** The callback of [reqs.map] inside [recursiveUpdate] (lines 134-156). *)
Fixpoint recursiveUpdateNode (reqId : string) (updates : RequirementUpdates)
  (req : Requirement) {struct req} : Requirement :=
  if String.eqb (id req) reqId then
    let updatedReq := applyUpdates req updates in
    if truthyBool (isDisabled req) then req else updatedReq
  else
    match children req with
    | Some cs =>
        set_children req (Some (map (recursiveUpdateNode reqId updates) cs))
    | None => req
    end.

Definition recursiveUpdate (reqId : string) (updates : RequirementUpdates)
  (reqs : list Requirement) : list Requirement :=
  map (recursiveUpdateNode reqId updates) reqs.

Definition updateRequirementValue (task : Task) (reqId : string)
  (updates : RequirementUpdates) (now : Z) : Task :=
  if negb (TaskStatus_eqb (status task) RUNNING)
     && negb (TaskStatus_eqb (status task) PAUSED)
  then task
  else
    let newTask := cloneTask task in
    let newTask :=
      set_requirements newTask
        (recursiveUpdate reqId updates (requirements newTask)) in
    evaluateTaskState newTask now.

(** *** Task control actions *)

Definition startTask (task : Task) (now : Z) : Task :=
  if TaskStatus_eqb (status task) IDLE || TaskStatus_eqb (status task) PAUSED
  then evaluateTaskState (set_status task RUNNING) now
  else task.

Definition pauseTask (task : Task) : Task :=
  if TaskStatus_eqb (status task) RUNNING
  then set_status task PAUSED
  else task.

(** The callback of [reqs.map] inside [recursiveReset] (lines 183-189). *)
Fixpoint recursiveResetNode (req : Requirement) {struct req} : Requirement :=
  mkRequirement (id req) (type req) (title req) (description req)
    (isOptional req) (xorGroup req)
    (match type req with NUMERIC => Some 0 | _ => None end)
    (targetValue req)
    (match children req with
     | Some cs => Some (map recursiveResetNode cs)
     | None => None
     end)
    false (Some false) (valueLimit req) (customData req).

Definition recursiveReset (reqs : list Requirement) : list Requirement :=
  map recursiveResetNode reqs.

Definition resetTask (task : Task) (now : Z) : Task :=
  mkTask (taskId task) (taskTitle task) (taskDescription task) IDLE
    (recursiveReset (requirements task)) (timeLimit task) 0 (createdAt task)
    now (isLocked task) (taskCustomData task).

(** Stand-in for [Infinity]: an integer above every double, so that the
    comparisons of the engine read it as the source reads [Infinity]. *)
Definition infinity : Z := 2 ^ 1024.

(** The double nearest to an integer (ties to the even significand): an
    integer of at most 53 significant bits is a double; a longer one loses its
    low bits, and one that rounds beyond the largest double,
    [2 ^ 1024 - 2 ^ 971], overflows. *)
Definition roundToDouble (z : Z) : Z :=
  let a := Z.abs z in
  let n := Z.log2 a in
  if n <? 53 then z
  else
    let e := n - 52 in
    let q := a / 2 ^ e in
    let rest := a mod 2 ^ e in
    let half := 2 ^ (e - 1) in
    let q' :=
      if half <? rest then q + 1
      else if rest <? half then q
      else if Z.even q then q else q + 1 in
    let r := q' * 2 ^ e in
    Z.sgn z * (if infinity <=? r then infinity else r).

(** [a + b] on two finite integer-valued numbers: the exact sum, rounded to a
    double. *)
Definition numberAdd (a b : Z) : Z := roundToDouble (a + b).

Definition tickTask (task : Task) (deltaSeconds : Z) (now : Z) : Task :=
  if negb (TaskStatus_eqb (status task) RUNNING) then task
  else
    let newTask :=
      set_elapsedTime task (numberAdd (elapsedTime task) deltaSeconds) in
    evaluateTaskState newTask now.

(** ** Traversal of the requirement tree *)

Definition childList (r : Requirement) : list Requirement :=
  match children r with
  | Some cs => cs
  | None => []
  end.

(** A node followed by all its descendants, through [children] of any node. *)
Fixpoint nodesOf (r : Requirement) {struct r} : list Requirement :=
  r :: match children r with
       | Some cs => flat_map nodesOf cs
       | None => []
       end.

(** Every node of a requirement list, at every depth. *)
Definition allNodes (rs : list Requirement) : list Requirement :=
  flat_map nodesOf rs.

(** The [children] arrays found below a node, at every depth. *)
Fixpoint listsBelow (r : Requirement) {struct r} : list (list Requirement) :=
  match children r with
  | Some cs => cs :: flat_map listsBelow cs
  | None => []
  end.

(** Every sibling array of a tree: the top-level one and all below. *)
Definition siblingLists (rs : list Requirement) : list (list Requirement) :=
  rs :: flat_map listsBelow rs.

(** The node reached from a sibling array by following child indices. *)
Fixpoint nodeAt (path : list nat) (rs : list Requirement) {struct path}
  : option Requirement :=
  match path with
  | [] => None
  | i :: rest =>
      match nth_error rs i with
      | None => None
      | Some r =>
          match rest with
          | [] => Some r
          | _ :: _ => nodeAt rest (childList r)
          end
      end
  end.

(** The proper ancestors met on the way, outermost first. *)
Fixpoint ancestorsAt (path : list nat) (rs : list Requirement) {struct path}
  : list Requirement :=
  match path with
  | [] => []
  | i :: rest =>
      match nth_error rs i with
      | None => []
      | Some r =>
          match rest with
          | [] => []
          | _ :: _ => r :: ancestorsAt rest (childList r)
          end
      end
  end.

(** Structural induction through the [children] arrays. *)
Section RequirementInduction.
Variable P : Requirement -> Prop.
Hypothesis step : forall r, Forall P (childList r) -> P r.

Fixpoint Requirement_ind (r : Requirement) {struct r} : P r :=
  step r
    (match r as r0 return Forall P (childList r0) with
     | mkRequirement _ _ _ _ _ _ _ _ kids _ _ _ _ =>
         match kids as k
           return Forall P (match k with Some cs => cs | None => [] end)
         with
         | Some cs =>
             (fix all (l : list Requirement) : Forall P l :=
                match l with
                | [] => Forall_nil P
                | c :: l' => Forall_cons c (Requirement_ind c) (all l')
                end) cs
         | None => Forall_nil P
         end
     end).
End RequirementInduction.

(** ** Notions used in the statements *)

Definition RequirementType_eqb (a b : RequirementType) : bool :=
  match a, b with
  | BOOLEAN, BOOLEAN | NUMERIC, NUMERIC | GROUP, GROUP => true
  | _, _ => false
  end.

(** What the evaluator never writes. *)
Definition sameStatic (a b : Requirement) : Prop :=
  id a = id b /\ type a = type b /\ title a = title b
  /\ description a = description b /\ isOptional a = isOptional b
  /\ xorGroup a = xorGroup b /\ currentValue a = currentValue b
  /\ targetValue a = targetValue b /\ valueLimit a = valueLimit b
  /\ customData a = customData b.

(** Two tasks that agree on every field but [updatedAt]. *)
Definition sameExceptUpdatedAt (a b : Task) : Prop :=
  set_updatedAt a 0 = set_updatedAt b 0.

(** *** XOR resolution *)

(** The node is locked by the XOR check exactly when it carries a label and a
    sibling wins. *)
Definition xorLockedBy (req : Requirement) (allSiblings : list Requirement)
  : bool :=
  truthyString (xorGroup req)
  && match xorWinner req allSiblings with Some _ => true | None => false end.

(** The node that leaves step 1 of [evaluateRequirement] when no sibling
    wins. *)
Definition afterXor (r : Requirement) : Requirement :=
  if truthyString (xorGroup r) then set_isDisabled r (Some false) else r.

(** In a tree that leaves the evaluator, a node that was locked by the XOR
    check is one that carries a label and is disabled. *)
Definition xorLocked (r : Requirement) : bool :=
  truthyString (xorGroup r) && truthyBool (isDisabled r).

(** The [children] arrays below a node that a pass has walked: those of GROUP
    nodes that are not XOR-locked, reached through such nodes only. *)
Fixpoint walkedBelow (r : Requirement) {struct r} : list (list Requirement) :=
  match type r with
  | GROUP =>
      if xorLocked r then []
      else
        match children r with
        | Some cs => cs :: flat_map walkedBelow cs
        | None => []
        end
  | _ => []
  end.

(** The sibling arrays of an evaluated tree that the pass has walked. *)
Definition walkedLists (rs : list Requirement) : list (list Requirement) :=
  rs :: flat_map walkedBelow rs.

(** No two siblings with different identifiers and the same non-empty
    [xorGroup] are both fulfilled. *)
Definition XorExclusive (sibs : list Requirement) : Prop :=
  forall i j a b,
    i <> j ->
    nth_error sibs i = Some a -> nth_error sibs j = Some b ->
    id a <> id b ->
    truthyString (xorGroup a) = true -> xorGroup a = xorGroup b ->
    ~ (isFulfilled a = true /\ isFulfilled b = true).

(** No node of the tree carries an XOR label. *)
Definition withoutXor (rs : list Requirement) : bool :=
  forallb (fun r => negb (truthyString (xorGroup r))) (allNodes rs).

(** *** Fulfilment and disabling *)

(** [valueLimit] is defined and the current value (0 when absent) exceeds it. *)
Definition limitBreached (r : Requirement) : bool :=
  match valueLimit r with
  | Some limit => limit <? orDefault (currentValue r) 0
  | None => false
  end.

(** A child that counts for its group: not marked optional. *)
Definition mandatory (c : Requirement) : Prop :=
  truthyBool (isOptional c) = false.

(** [isDisabled] and [isFulfilled] are both true. *)
Definition disabledAndFulfilled (r : Requirement) : bool :=
  truthyBool (isDisabled r) && isFulfilled r.

(** A NUMERIC node whose current value exceeds its [valueLimit]. *)
Definition breachedNumeric (r : Requirement) : bool :=
  RequirementType_eqb (type r) NUMERIC && limitBreached r.

(** A node that is handed in disabled and that the evaluator may hand back
    disabled and fulfilled: it carries no XOR label (the XOR check is the only
    step that writes [isDisabled = false]), its [isDisabled] is true, and
    - BOOLEAN: its [isFulfilled], which is kept, is true;
    - NUMERIC: its current value has reached the target and does not exceed
      the limit;
    - GROUP: always (its fulfilment is that of its children). *)
Definition keepsSuppliedDisabled (n : Requirement) : bool :=
  negb (truthyString (xorGroup n))
  && truthyBool (isDisabled n)
  && match type n with
     | BOOLEAN => isFulfilled n
     | NUMERIC =>
         (orDefault (targetValue n) 1 <=? orDefault (currentValue n) 0)
         && negb (limitBreached n)
     | GROUP => true
     end.

(** A node of an evaluated tree that the pass reached: a member of one of the
    sibling arrays the pass walked. *)
Definition reached (rs : list Requirement) (r : Requirement) : Prop :=
  exists sibs, In sibs (walkedLists rs) /\ In r sibs.

(** ** Sample data *)

Definition booleanReq (i : string) (xor : option string) (fulfilled : bool)
  (disabled : option bool) : Requirement :=
  mkRequirement i BOOLEAN i None None xor None None None fulfilled disabled
    None None.

Definition numericReq (i : string) (xor : option string)
  (current target limit : option Z) (fulfilled : bool) (disabled : option bool)
  : Requirement :=
  mkRequirement i NUMERIC i None None xor current target None fulfilled
    disabled limit None.

Definition groupReq (i : string) (xor : option string)
  (kids : list Requirement) (fulfilled : bool) (disabled : option bool)
  : Requirement :=
  mkRequirement i GROUP i None None xor None None (Some kids) fulfilled
    disabled None None.

Definition asOptional (r : Requirement) : Requirement :=
  mkRequirement (id r) (type r) (title r) (description r) (Some true)
    (xorGroup r) (currentValue r) (targetValue r) (children r) (isFulfilled r)
    (isDisabled r) (valueLimit r) (customData r).

Definition sampleTask (s : TaskStatus) (rs : list Requirement)
  (limit : option Z) (elapsed : Z) : Task :=
  mkTask "quest" "Quest" "" s rs limit elapsed 0 0 None None.

(** An IDLE task past its time limit, with flags no pass has derived. *)
Definition idleOverdue : Task :=
  sampleTask IDLE
    [ numericReq "laps" None (Some 9) (Some 3) None false (Some true);
      groupReq "core" None [] false None ]
    (Some 60) 61.

(** A RUNNING task past its time limit with every requirement fulfilled. *)
Definition overdueAllDone : Task :=
  sampleTask RUNNING
    [ booleanReq "warmup" None true None;
      numericReq "pushups" None (Some 20) (Some 20) None true None ]
    (Some 60) 61.

(** A RUNNING task with [timeLimit] 0. *)
Definition unboundedAllDone : Task :=
  sampleTask RUNNING [ booleanReq "warmup" None true None ] (Some 0) 5000.

(** A counter beyond its limit ([valueLimit] 5, [currentValue] 6). *)
Definition breachedCounter : Requirement :=
  numericReq "laps" None (Some 6) (Some 3) (Some 5) false None.

(** A counter at its target and within its limit. *)
Definition doneCounter : Requirement :=
  numericReq "laps" (Some "cardio") (Some 3) (Some 3) (Some 5) false (Some true).

(** A task with three levels of nesting and flags of every kind. *)
Definition nestedTask : Task :=
  sampleTask COMPLETED
    [ booleanReq "warmup" None true (Some true);
      groupReq "core" (Some "main")
        [ numericReq "pushups" None (Some 20) (Some 20) None true None;
          groupReq "abs" None
            [ numericReq "situps" None (Some 31) (Some 30) (Some 30) false
                (Some true);
              booleanReq "plank" (Some "static") true None ]
            true None ]
        true None ]
    (Some 60) 75.

(** A group whose only unfulfilled mandatory child after a pass is the loser
    of an XOR contest. *)
Definition mixedGroup : Requirement :=
  groupReq "core" None
    [ numericReq "pushups" (Some "arms") (Some 20) (Some 20) None false None;
      numericReq "dips" (Some "arms") (Some 30) (Some 30) None false None;
      asOptional (booleanReq "stretch" None false None) ]
    true None.

(** A group all of whose children are optional. *)
Definition optionalOnlyGroup : Requirement :=
  groupReq "extras" None
    [ asOptional (booleanReq "stretch" None false None);
      asOptional (numericReq "sauna" None (Some 0) (Some 10) None false None) ]
    false None.

(** A disabled node below a group, and an update aimed at it. *)
Definition lockedSwim : Requirement :=
  booleanReq "swim" (Some "cardio") false (Some true).

Definition pausedTask : Task :=
  sampleTask PAUSED
    [ booleanReq "run" (Some "cardio") true (Some false);
      groupReq "pool" None [ lockedSwim ] false None ]
    None 12.

Definition toggleOn : RequirementUpdates :=
  mkUpdates None None None None None None None None None (Some true)
    (Some (Some false)) None None.

(** Updates that touch one property. *)
Definition markFulfilled (v : bool) : RequirementUpdates :=
  mkUpdates None None None None None None None None None (Some v) None None
    None.

Definition setCurrentValue (v : Z) : RequirementUpdates :=
  mkUpdates None None None None None None (Some (Some v)) None None None None
    None None.

(** Two exclusive BOOLEAN options in a started task. *)
Definition runOrSwim : Task :=
  sampleTask RUNNING
    [ booleanReq "run" (Some "cardio") false None;
      booleanReq "swim" (Some "cardio") false None ]
    None 0.

(** A counter with target 20, and the "+1" action on it. *)
Definition pushupsTask : Task :=
  sampleTask RUNNING
    [ numericReq "pushups" None (Some 0) (Some 20) None false None ] None 0.

Definition plusOne (t : Task) : Task :=
  match requirements t with
  | r :: _ =>
      updateRequirementValue t (id r)
        (setCurrentValue (orDefault (currentValue r) 0 + 1)) 0
  | [] => t
  end.

(** Two XOR-labelled counters of which the second has reached its target;
    flags as before the first pass. *)
Definition raceTask : Task :=
  sampleTask RUNNING
    [ numericReq "run" (Some "cardio") (Some 0) (Some 1) None false None;
      numericReq "swim" (Some "cardio") (Some 1) (Some 1) None false None ]
    None 0.

(** A counter flagged disabled whose value is back under its limit. *)
Definition recoveredCounter : Requirement :=
  numericReq "laps" None (Some 3) (Some 1) (Some 5) false (Some true).

Definition recoveredTask : Task :=
  sampleTask RUNNING [ recoveredCounter ] None 0.

(** A group locked by a fulfilled XOR sibling, holding children whose
    supplied flags conflict. *)
Definition staleChildrenTask : Task :=
  sampleTask RUNNING
    [ groupReq "gym" (Some "venue")
        [ booleanReq "bench" (Some "lift") true (Some true);
          booleanReq "squat" (Some "lift") true None ]
        false None;
      booleanReq "park" (Some "venue") true None;
      booleanReq "warmup" None true (Some true) ]
    None 0.

(** A started task with supplied flags that a pass has to overwrite: an XOR
    option supplied disabled and fulfilled beside a fulfilled rival, and a
    counter beyond its limit supplied fulfilled. *)
Definition suppliedFlagsTask : Task :=
  sampleTask RUNNING
    [ booleanReq "run" (Some "cardio") true (Some true);
      booleanReq "swim" (Some "cardio") true None;
      groupReq "core" None
        [ numericReq "pushups" None (Some 6) (Some 3) (Some 5) true None;
          booleanReq "plank" None true None;
          numericReq "situps" None (Some 1) (Some 3) None true (Some true) ]
        true None ]
    None 10.

(** A started task whose unlabelled nodes are supplied disabled: a counter at
    its target and a group whose only child is fulfilled. *)
Definition disabledUnlabelledTask : Task :=
  sampleTask RUNNING
    [ numericReq "laps" None (Some 3) (Some 3) None false (Some true);
      groupReq "core" None [ booleanReq "plank" None true None ] false
        (Some true) ]
    None 10.

(** A RUNNING task with XOR groups at two levels. *)
Definition cardioTask : Task :=
  sampleTask RUNNING
    [ booleanReq "run" (Some "cardio") true None;
      booleanReq "swim" (Some "cardio") true None;
      groupReq "core" None
        [ numericReq "pushups" (Some "arms") (Some 20) (Some 20) (Some 25)
            false None;
          numericReq "dips" (Some "arms") (Some 31) (Some 30) (Some 30) false
            None ]
        false None ]
    (Some 60) 10.

(** ** The task list of the application shell

    The state updaters that [App] passes to [setTasks], and the lookup of the
    active task. *)

(** [prev.map(t => t.id === updatedTask.id ? updatedTask : t)] *)
Definition handleTaskUpdate (updatedTask : Task) (prev : list Task)
  : list Task :=
  map (fun t => if String.eqb (taskId t) (taskId updatedTask)
                then updatedTask else t) prev.

(** [prev.filter(t => t.id !== id)] *)
Definition onDelete (i : string) (prev : list Task) : list Task :=
  filter (fun t => negb (String.eqb (taskId t) i)) prev.

(** [[...prev, evaluateTaskState(task)]] *)
Definition onAdd (task : Task) (now : Z) (prev : list Task) : list Task :=
  prev ++ [evaluateTaskState task now].

(** [tasks.find(t => t.id === activeTaskId)], where [activeTaskId] is a
    string or [null]. *)
Definition activeTask (tasks : list Task) (activeTaskId : option string)
  : option Task :=
  match activeTaskId with
  | Some i => find (fun t => String.eqb (taskId t) i) tasks
  | None => None
  end.

(** ** Further notions *)

(** A node with its two derived flags, and those of all its descendants,
    blanked. *)
Fixpoint eraseFlags (r : Requirement) {struct r} : Requirement :=
  mkRequirement (id r) (type r) (title r) (description r) (isOptional r)
    (xorGroup r) (currentValue r) (targetValue r)
    (match children r with
     | Some cs => Some (map eraseFlags cs)
     | None => None
     end)
    false None (valueLimit r) (customData r).

(** The time-limit test of [evaluateTaskState] (line 91). *)
Definition overdue (t : Task) : bool :=
  truthyNumber (timeLimit t) && (orDefault (timeLimit t) 0 <=? elapsedTime t).

(** A status no control action but [resetTask] acts on. *)
Definition settled (s : TaskStatus) : bool :=
  match s with
  | COMPLETED | FAILED | CANCELLED | LOCKED => true
  | _ => false
  end.

(** The payload that sets nothing. *)
Definition noUpdates : RequirementUpdates :=
  mkUpdates None None None None None None None None None None None None None.

(** Further sample data. *)

Definition overdueIdle : Task :=
  sampleTask IDLE [ booleanReq "warmup" None false None ] (Some 60) 60.

Definition runningTask : Task :=
  sampleTask RUNNING
    [ booleanReq "warmup" None true None;
      numericReq "pushups" None (Some 5) (Some 20) None false None ]
    (Some 60) 58.

Definition completedTask : Task :=
  sampleTask COMPLETED [ booleanReq "warmup" None true None ] None 30.

Definition plainTask : Task :=
  sampleTask RUNNING
    [ booleanReq "warmup" None true None;
      groupReq "core" None
        [ numericReq "pushups" None (Some 20) (Some 20) (Some 25) true None;
          asOptional (booleanReq "plank" None false None) ]
        false None ]
    None 3.

(** A RUNNING task whose elapsed time has left the range in which every
    integer is a double. *)
Definition ancientTask : Task :=
  sampleTask RUNNING [ booleanReq "warmup" None false None ] None (2 ^ 53).

Definition otherTask : Task :=
  mkTask "errand" "Errand" "" IDLE [] None 0 0 0 None None.

(** ** The clock of the task runner ([src/components/TaskRunner.tsx]) *)

(** [n.toString()] for an integer. *)
Definition toString (n : Z) : string :=
  NilZero.string_of_int (Z.to_int n).

(** [s.padStart(2, '0')] *)
Definition padStart2 (s : string) : string :=
  match String.length s with
  | O => "00"
  | S O => String.append "0" s
  | _ => s
  end.

(** [formatTime] (lines 154-158): [Math.floor(seconds / 60)] is the floored
    quotient and [seconds % 60] the remainder with the sign of [seconds]. *)
Definition formatTime (seconds : Z) : string :=
  let m := seconds / 60 in
  let s := Z.rem seconds 60 in
  String.append (padStart2 (toString m))
    (String.append ":" (padStart2 (toString s))).

(** The digit a character stands for, and the seconds a five-character clock
    text stands for; used to tell printed times apart. *)
Definition digitOf (c : option Ascii.ascii) : Z :=
  match c with
  | Some a => Z.of_nat (Ascii.nat_of_ascii a) - 48
  | None => 0
  end.

Definition readClock (s : string) : Z :=
  60 * (10 * digitOf (String.get 0 s) + digitOf (String.get 1 s))
  + (10 * digitOf (String.get 3 s) + digitOf (String.get 4 s)).

(** The test that a number of seconds prints as a well-formed clock text. *)
Definition clockPrintsWell (n : nat) : bool :=
  let text := formatTime (Z.of_nat n) in
  Nat.eqb (String.length text) 5
  && match String.get 2 text with
     | Some c => Ascii.eqb c ":"%char
     | None => false
     end
  && (readClock text =? Z.of_nat n).

(** ** Trees on which XOR resolution settles in one pass *)

(** Every node that carries an XOR label is a BOOLEAN node. *)
Definition labelsOnBoolean (rs : list Requirement) : bool :=
  forallb (fun n => negb (truthyString (xorGroup n))
                    || RequirementType_eqb (type n) BOOLEAN)
    (allNodes rs).

(** No two siblings share an identifier, in any sibling array of the tree. *)
Definition siblingIdsDistinct (rs : list Requirement) : Prop :=
  forall sibs, In sibs (siblingLists rs) -> NoDup (map id sibs).

(** A member of the XOR group of [req] that is fulfilled. *)
Definition fulfilledMember (req s : Requirement) : bool :=
  strictEqString (xorGroup s) (xorGroup req) && isFulfilled s.

(** The sample quest of the application shell ([MOCK_TASKS]), started, with
    both cardio options ticked. *)
Definition mockTask : Task :=
  sampleTask RUNNING
    [ booleanReq "req_1" None false None;
      groupReq "req_2" None
        [ numericReq "c1" None (Some 0) (Some 20) None false None;
          numericReq "c2" None (Some 0) (Some 30) None false None ]
        false None;
      booleanReq "req_3a" (Some "cardio") true None;
      booleanReq "req_3b" (Some "cardio") true None;
      asOptional (booleanReq "req_4" None false None) ]
    None 0.

(** ** Derived flags

    What the type-specific step derives for a node, read from its own fields
    and its children. *)
Definition derivedFulfilment (r : Requirement) : bool :=
  match type r with
  | BOOLEAN => isFulfilled r
  | NUMERIC =>
      negb (limitBreached r)
      && (orDefault (targetValue r) 1 <=? orDefault (currentValue r) 0)
  | GROUP => groupFulfilled (childList r)
  end.

(** A node of an evaluated tree whose [isFulfilled] is the derived one, or
    that the XOR check locked. *)
Definition settledNode (r : Requirement) : bool :=
  xorLocked r || Bool.eqb (isFulfilled r) (derivedFulfilment r).

(** ** Basic facts about the evaluator *)

Lemma evaluateRequirement_eq (req : Requirement) (allSiblings : list Requirement) :
  evaluateRequirement req allSiblings =
  let (req1, locked) := xorStep req allSiblings in
  if locked then req1
  else
    match type req with
    | BOOLEAN => req1
    | NUMERIC => evaluateNumeric req1
    | GROUP =>
        match children req with
        | Some (c :: cs) =>
            let kids := mapInPlace evaluateRequirement [] (c :: cs) in
            set_isFulfilled (set_children req1 (Some kids)) (groupFulfilled kids)
        | _ => set_isFulfilled req1 true
        end
    end.
Proof. destruct req; reflexivity. Qed.

Lemma xorStep_locked (req : Requirement) (sibs : list Requirement) :
  xorLockedBy req sibs = true ->
  xorStep req sibs =
  (set_isFulfilled (set_isDisabled req (Some true)) false, true).
Proof.
  unfold xorLockedBy, xorStep. intro H.
  apply andb_true_iff in H as [Hl Hw]. rewrite Hl.
  destruct (xorWinner req sibs); [reflexivity | discriminate Hw].
Qed.

Lemma xorStep_free (req : Requirement) (sibs : list Requirement) :
  xorLockedBy req sibs = false ->
  xorStep req sibs = (afterXor req, false).
Proof.
  unfold xorLockedBy, xorStep, afterXor. intro H.
  destruct (truthyString (xorGroup req)); [|reflexivity].
  destruct (xorWinner req sibs); [discriminate H | reflexivity].
Qed.

Lemma afterXor_static (r : Requirement) : sameStatic (afterXor r) r.
Proof.
  unfold afterXor, sameStatic.
  destruct (truthyString (xorGroup r)); simpl; repeat split; reflexivity.
Qed.

Lemma afterXor_children (r : Requirement) : children (afterXor r) = children r.
Proof. unfold afterXor. destruct (truthyString (xorGroup r)); reflexivity. Qed.

(** The evaluation of a node that no sibling locks. *)
Lemma evaluateRequirement_free (req : Requirement) (sibs : list Requirement) :
  xorLockedBy req sibs = false ->
  evaluateRequirement req sibs =
  match type req with
  | BOOLEAN => afterXor req
  | NUMERIC => evaluateNumeric (afterXor req)
  | GROUP =>
      match children req with
      | Some (c :: cs) =>
          let kids := mapInPlace evaluateRequirement [] (c :: cs) in
          set_isFulfilled (set_children (afterXor req) (Some kids))
            (groupFulfilled kids)
      | _ => set_isFulfilled (afterXor req) true
      end
  end.
Proof.
  intro H. rewrite evaluateRequirement_eq, (xorStep_free _ _ H). reflexivity.
Qed.

(** The same for a group, told by whether it has children. *)
Lemma evaluateRequirement_group_kids (req : Requirement)
  (sibs kids : list Requirement) :
  type req = GROUP -> xorLockedBy req sibs = false ->
  children req = Some kids -> kids <> [] ->
  evaluateRequirement req sibs =
  set_isFulfilled
    (set_children (afterXor req)
       (Some (mapInPlace evaluateRequirement [] kids)))
    (groupFulfilled (mapInPlace evaluateRequirement [] kids)).
Proof.
  intros Hty Hfree Hkids Hne.
  rewrite (evaluateRequirement_free _ _ Hfree), Hty, Hkids.
  destruct kids; [contradiction | reflexivity].
Qed.

Lemma evaluateRequirement_group_empty (req : Requirement)
  (sibs : list Requirement) :
  type req = GROUP -> xorLockedBy req sibs = false ->
  childList req = [] ->
  evaluateRequirement req sibs = set_isFulfilled (afterXor req) true.
Proof.
  intros Hty Hfree Hkids.
  rewrite (evaluateRequirement_free _ _ Hfree), Hty.
  unfold childList in Hkids.
  destruct (children req) as [[|c cs]|]; [reflexivity | discriminate | reflexivity].
Qed.

Lemma evaluateRequirement_locked (req : Requirement) (sibs : list Requirement) :
  xorLockedBy req sibs = true ->
  evaluateRequirement req sibs =
  set_isFulfilled (set_isDisabled req (Some true)) false.
Proof.
  intro H. rewrite evaluateRequirement_eq, (xorStep_locked _ _ H). reflexivity.
Qed.

Lemma evaluateNumeric_static (req : Requirement) :
  sameStatic (evaluateNumeric req) req.
Proof.
  destruct req as [i ty ti de op xg cv tv ch fu di [limit|] cd];
    unfold evaluateNumeric, sameStatic; simpl;
    [destruct (limit <? _); simpl|]; repeat split; reflexivity.
Qed.

Lemma evaluateRequirement_static (req : Requirement) (sibs : list Requirement) :
  sameStatic (evaluateRequirement req sibs) req.
Proof.
  destruct (xorLockedBy req sibs) eqn:Hl.
  - rewrite (evaluateRequirement_locked _ _ Hl). unfold sameStatic; simpl.
    repeat split; reflexivity.
  - rewrite (evaluateRequirement_free _ _ Hl).
    pose proof (afterXor_static req) as Hs.
    destruct (type req).
    + exact Hs.
    + pose proof (evaluateNumeric_static (afterXor req)) as Hn.
      unfold sameStatic in *. intuition congruence.
    + destruct (children req) as [[|c cs]|]; unfold sameStatic in *; simpl;
        intuition congruence.
Qed.

(** *** The in-place sibling pass *)

Lemma mapInPlace_length (f : Requirement -> list Requirement -> Requirement)
  (todo : list Requirement) :
  forall done, List.length (mapInPlace f done todo) = List.length todo.
Proof.
  induction todo as [|r rest IH]; intro done; simpl; [reflexivity|].
  now rewrite IH.
Qed.

(** The element at position [i] of the result is [f] applied to the element
    at position [i], with a sibling array made of the results for the earlier
    positions followed by the original elements from [i] on. *)
Lemma mapInPlace_nth (f : Requirement -> list Requirement -> Requirement)
  (todo : list Requirement) :
  forall done i r',
    nth_error (mapInPlace f done todo) i = Some r' ->
    exists r,
      nth_error todo i = Some r
      /\ r' = f r (done ++ firstn i (mapInPlace f done todo) ++ skipn i todo).
Proof.
  induction todo as [|r rest IH]; intros done i r' H.
  - destruct i; discriminate H.
  - destruct i as [|i]; simpl in H.
    + injection H as <-. exists r. split; reflexivity.
    + destruct (IH _ _ _ H) as (c & Hc & ->).
      exists c. split; [exact Hc|].
      simpl. f_equal. rewrite <- app_assoc. reflexivity.
Qed.

(** *** Nodes of a tree *)

Lemma nodesOf_eq (r : Requirement) :
  nodesOf r = r :: flat_map nodesOf (childList r).
Proof. destruct r as [? ? ? ? ? ? ? ? [cs|] ? ? ? ?]; reflexivity. Qed.

Lemma flat_map_map_comm (f : Requirement -> Requirement)
  (cs : list Requirement) :
  Forall (fun c => nodesOf (f c) = map f (nodesOf c)) cs ->
  flat_map nodesOf (map f cs) = map f (flat_map nodesOf cs).
Proof.
  induction 1 as [|c cs Hc _ IH]; simpl; [reflexivity|].
  now rewrite map_app, Hc, IH.
Qed.

Lemma Forall_impl_In {A : Type} (P Q : A -> Prop) (l : list A) :
  Forall P l -> Forall (fun x => P x -> Q x) l -> Forall Q l.
Proof.
  induction 1 as [|x l Hx _ IH]; intro H; [constructor|].
  apply Forall_cons_iff in H as [Hpq Hrest]. constructor; auto.
Qed.

Lemma Forall_flat_map_nodes (Q : Requirement -> Prop) (cs : list Requirement) :
  Forall Q (flat_map nodesOf cs) <-> Forall (fun c => Forall Q (nodesOf c)) cs.
Proof.
  induction cs as [|c cs IH]; simpl.
  - split; constructor.
  - rewrite Forall_app, Forall_cons_iff, IH. reflexivity.
Qed.

(** A property of the nodes below every result of [f] holds below the whole
    pass. *)
Lemma mapInPlace_flat_map {B : Type} (g : Requirement -> list B)
  (Q : B -> Prop) (f : Requirement -> list Requirement -> Requirement)
  (todo : list Requirement) :
  Forall (fun c => forall sibs, Forall Q (g (f c sibs))) todo ->
  forall done, Forall Q (flat_map g (mapInPlace f done todo)).
Proof.
  induction 1 as [|c rest Hc _ IH]; intro done; simpl; [constructor|].
  apply Forall_app. split; [apply Hc | apply IH].
Qed.

Lemma walkedBelow_eq (r : Requirement) :
  walkedBelow r =
  match type r with
  | GROUP =>
      if xorLocked r then []
      else
        match children r with
        | Some cs => cs :: flat_map walkedBelow cs
        | None => []
        end
  | _ => []
  end.
Proof. destruct r; reflexivity. Qed.

(** ** Task evaluator: status *)

(** C10. For a task whose status is IDLE or LOCKED, [evaluateTaskState]
    returns a task equal to its input in every field: the requirement tree is
    not walked, [updatedAt] is not stamped, and the status does not become
    FAILED whatever the time limit and the elapsed time are. *)
Theorem evaluateTaskState_idle_locked_identity (t : Task) (now : Z) :
  status t = IDLE \/ status t = LOCKED ->
  evaluateTaskState t now = t.
Proof.
  intro H. unfold evaluateTaskState, cloneTask.
  assert (Hrun : TaskStatus_eqb (status t) RUNNING = false)
    by (destruct H as [H|H]; rewrite H; reflexivity).
  rewrite Hrun.
  assert (Hgate : TaskStatus_eqb (status t) IDLE
                  || TaskStatus_eqb (status t) LOCKED = true)
    by (destruct H as [H|H]; rewrite H; reflexivity).
  destruct (truthyNumber (timeLimit t) && _); rewrite Hgate; reflexivity.
Qed.

Lemma evaluateTaskState_idle_locked_identity_witness :
  evaluateTaskState idleOverdue 1000 = idleOverdue.
Proof.
  apply (evaluateTaskState_idle_locked_identity idleOverdue 1000).
  left; reflexivity.
Defined.

(** The status after the time-limit check survives the rest of the pass unless
    it is RUNNING. *)
Lemma evaluateTaskState_status (t : Task) (now : Z) :
  let overdue :=
    truthyNumber (timeLimit t)
    && (orDefault (timeLimit t) 0 <=? elapsedTime t) in
  status (evaluateTaskState t now) =
  match status t with
  | RUNNING =>
      if overdue then FAILED
      else if allRelevantFulfilled
                (mapInPlace evaluateRequirement [] (requirements t))
           then COMPLETED else RUNNING
  | s => s
  end.
Proof.
  unfold evaluateTaskState, cloneTask.
  destruct (truthyNumber (timeLimit t) && _); simpl;
    destruct (status t) eqn:Hs; simpl; rewrite ?Hs; simpl; try reflexivity;
    rewrite ?andb_false_r; simpl; rewrite ?Hs; try reflexivity.
  rewrite andb_true_r.
  destruct (allRelevantFulfilled _); simpl; [reflexivity | exact Hs].
Qed.

(** C7. A RUNNING task whose [timeLimit] is set and non-zero and whose
    [elapsedTime] has reached it evaluates to FAILED, whatever its
    requirements are; a task whose [timeLimit] is absent or zero and that is
    not FAILED already is never FAILED after evaluation. *)
Theorem evaluateTaskState_time_limit (t : Task) (now : Z) :
  (forall limit,
      status t = RUNNING -> timeLimit t = Some limit -> limit <> 0 ->
      limit <= elapsedTime t ->
      status (evaluateTaskState t now) = FAILED)
  /\ (timeLimit t = None \/ timeLimit t = Some 0 ->
      status t <> FAILED ->
      status (evaluateTaskState t now) <> FAILED).
Proof.
  rewrite evaluateTaskState_status. split.
  - intros limit Hs Hl Hnz Hle. rewrite Hs, Hl. simpl.
    destruct (Z.eqb_spec limit 0) as [->|_]; [contradiction|]. simpl.
    destruct (Z.leb_spec limit (elapsedTime t)); [reflexivity | lia].
  - intros Hl Hs.
    assert (Hoff : truthyNumber (timeLimit t) = false)
      by (destruct Hl as [-> | ->]; reflexivity).
    rewrite Hoff. simpl.
    destruct (status t); try discriminate; try contradiction.
    destruct (allRelevantFulfilled _); discriminate.
Qed.

Lemma evaluateTaskState_time_limit_witness :
  status (evaluateTaskState overdueAllDone 1000) = FAILED
  /\ status (evaluateTaskState unboundedAllDone 1000) <> FAILED.
Proof.
  split.
  - apply (proj1 (evaluateTaskState_time_limit overdueAllDone 1000) 60);
      [reflexivity | reflexivity | lia | simpl; lia].
  - apply (proj2 (evaluateTaskState_time_limit unboundedAllDone 1000));
      [right; reflexivity | discriminate].
Defined.

(** ** Requirement evaluator: NUMERIC nodes *)

(** C4. A NUMERIC node that the XOR check of the pass does not lock comes out
    with [isFulfilled = (currentValue ?? 0) >= (targetValue ?? 1)], unless
    [valueLimit] is defined and the current value exceeds it, in which case it
    comes out with [isFulfilled = false] and [isDisabled = true] whatever the
    target is. *)
Theorem evaluateRequirement_numeric (r : Requirement) (sibs : list Requirement) :
  type r = NUMERIC ->
  xorLockedBy r sibs = false ->
  let r' := evaluateRequirement r sibs in
  (limitBreached r = false ->
     isFulfilled r' = (orDefault (targetValue r) 1 <=? orDefault (currentValue r) 0))
  /\ (limitBreached r = true ->
     isFulfilled r' = false /\ isDisabled r' = Some true).
Proof.
  intros Hty Hfree. cbv zeta.
  rewrite (evaluateRequirement_free _ _ Hfree), Hty.
  unfold limitBreached, afterXor.
  destruct r as [i ty ti de op xg cv tv ch fu di vl cd]; simpl.
  destruct (truthyString xg); unfold evaluateNumeric; simpl;
    (destruct vl as [limit|]; simpl;
     [destruct (limit <? orDefault cv 0); simpl|]);
    split; intro H; try discriminate H; auto.
Qed.

Lemma evaluateRequirement_numeric_witness :
  (isFulfilled (evaluateRequirement doneCounter [doneCounter]) = true)
  /\ (isFulfilled (evaluateRequirement breachedCounter [breachedCounter]) = false
      /\ isDisabled (evaluateRequirement breachedCounter [breachedCounter])
         = Some true).
Proof.
  split.
  - apply (proj1 (evaluateRequirement_numeric doneCounter [doneCounter]
                    eq_refl eq_refl)).
    reflexivity.
  - apply (proj2 (evaluateRequirement_numeric breachedCounter [breachedCounter]
                    eq_refl eq_refl)).
    reflexivity.
Defined.

(** ** Reset *)

(** The nodes of a reset tree are the reset nodes of the tree, in order. *)
Lemma nodesOf_recursiveResetNode (r : Requirement) :
  nodesOf (recursiveResetNode r) = map recursiveResetNode (nodesOf r).
Proof.
  induction r as [r IH] using Requirement_ind.
  rewrite (nodesOf_eq r), (nodesOf_eq (recursiveResetNode r)). simpl. f_equal.
  rewrite <- (flat_map_map_comm recursiveResetNode _ IH).
  destruct r as [? ? ? ? ? ? ? ? [cs|] ? ? ? ?]; reflexivity.
Qed.

Lemma allNodes_recursiveReset (rs : list Requirement) :
  allNodes (recursiveReset rs) = map recursiveResetNode (allNodes rs).
Proof.
  unfold allNodes, recursiveReset. apply flat_map_map_comm.
  apply Forall_forall. intros c _. apply nodesOf_recursiveResetNode.
Qed.

(** C8. Whatever the status and the nesting depth, [resetTask] returns a task
    with status IDLE, [elapsedTime] 0 and [updatedAt] freshly stamped, whose
    tree has the nodes of the input (same identifiers and types, same order)
    and in which every node at every depth has [isFulfilled = false],
    [isDisabled = false], and [currentValue] 0 when NUMERIC and absent
    otherwise; the evaluator is not run (a group stays unfulfilled). *)
Theorem resetTask_complete (t : Task) (now : Z) :
  let t' := resetTask t now in
  status t' = IDLE
  /\ elapsedTime t' = 0
  /\ updatedAt t' = now
  /\ map (fun r => (id r, type r)) (allNodes (requirements t'))
     = map (fun r => (id r, type r)) (allNodes (requirements t))
  /\ forall r, In r (allNodes (requirements t')) ->
       isFulfilled r = false
       /\ isDisabled r = Some false
       /\ currentValue r = match type r with NUMERIC => Some 0 | _ => None end.
Proof.
  cbv zeta. simpl. rewrite allNodes_recursiveReset.
  repeat split; try reflexivity.
  - rewrite map_map. apply map_ext. intros [? ? ? ? ? ? ? ? ? ? ? ? ?].
    reflexivity.
  - apply in_map_iff in H as (r0 & <- & _).
    destruct r0 as [? ? ? ? ? ? ? ? ? ? ? ? ?]; reflexivity.
  - apply in_map_iff in H as (r0 & <- & _).
    destruct r0 as [? ? ? ? ? ? ? ? ? ? ? ? ?]; reflexivity.
  - apply in_map_iff in H as (r0 & <- & _).
    destruct r0 as [? ? ? ? ? ? ? ? ? ? ? ? ?]; reflexivity.
Qed.

Example resetTask_nested :
  map (fun r => (id r, isFulfilled r, isDisabled r, currentValue r))
    (allNodes (requirements (resetTask nestedTask 9)))
  = [ ("warmup", false, Some false, None);
      ("core", false, Some false, None);
      ("pushups", false, Some false, Some 0);
      ("abs", false, Some false, None);
      ("situps", false, Some false, Some 0);
      ("plank", false, Some false, None) ].
Proof. reflexivity. Qed.

(** ** Requirement evaluator: GROUP nodes *)

Lemma groupFulfilled_spec (cs : list Requirement) :
  groupFulfilled cs = true <->
  forall c, In c cs -> mandatory c -> isFulfilled c = true.
Proof.
  unfold groupFulfilled, mandatory.
  set (relevant := filter _ cs).
  assert (Hrel : forall c, In c relevant <->
                           In c cs /\ truthyBool (isOptional c) = false).
  { intro c. unfold relevant. rewrite filter_In, negb_true_iff. reflexivity. }
  assert (Hall : match relevant with [] => true | _ => forallb isFulfilled relevant end
                 = forallb isFulfilled relevant)
    by (destruct relevant; reflexivity).
  rewrite Hall, forallb_forall. split.
  - intros H c Hin Hm. apply H, Hrel. split; assumption.
  - intros H c Hin. apply Hrel in Hin as [Hin Hm]. apply H; assumption.
Qed.

(** C6. For a GROUP node that the XOR check of the pass does not lock, every
    child is replaced by its own evaluation, run against the group's children
    array (in which the earlier children are already evaluated); then the
    group is fulfilled exactly when every non-optional child is fulfilled,
    which holds vacuously without such children, and a disabled child counts
    like any other. *)
Theorem evaluateRequirement_group (r : Requirement) (sibs : list Requirement) :
  type r = GROUP ->
  xorLockedBy r sibs = false ->
  let r' := evaluateRequirement r sibs in
  List.length (childList r') = List.length (childList r)
  /\ (forall i c',
        nth_error (childList r') i = Some c' ->
        exists c,
          nth_error (childList r) i = Some c
          /\ c' = evaluateRequirement c
                    (firstn i (childList r') ++ skipn i (childList r)))
  /\ (isFulfilled r' = true <->
      forall c, In c (childList r') -> mandatory c -> isFulfilled c = true).
Proof.
  intros Hty Hfree. cbv zeta.
  destruct (childList r) as [|c cs] eqn:Hkids.
  - rewrite (evaluateRequirement_group_empty _ _ Hty Hfree Hkids).
    assert (Hsame : childList (set_isFulfilled (afterXor r) true) = [])
      by (unfold childList in *; simpl; rewrite afterXor_children; exact Hkids).
    rewrite Hsame. split; [reflexivity|]. split.
    + intros [|i] c' H; discriminate H.
    + split; [intros _ c [] | reflexivity].
  - assert (Hch : children r = Some (c :: cs)).
    { unfold childList in Hkids. destruct (children r); [|discriminate].
      now f_equal. }
    rewrite (evaluateRequirement_group_kids _ _ _ Hty Hfree Hch)
      by discriminate.
    unfold childList at 1 2 3 4. cbn [children set_isFulfilled set_children].
    cbn [isFulfilled].
    split; [apply mapInPlace_length|]. split.
    + intros i c' H. apply mapInPlace_nth in H. exact H.
    + apply groupFulfilled_spec.
Qed.

Lemma evaluateRequirement_group_witness :
  isFulfilled (evaluateRequirement mixedGroup [mixedGroup]) = true <->
  forall c,
    In c (childList (evaluateRequirement mixedGroup [mixedGroup])) ->
    mandatory c -> isFulfilled c = true.
Proof.
  exact (proj2 (proj2 (evaluateRequirement_group mixedGroup [mixedGroup]
                         eq_refl eq_refl))).
Defined.

Example evaluateRequirement_group_blocked_by_disabled_child :
  map (fun c => (id c, isFulfilled c, isDisabled c))
    (childList (evaluateRequirement mixedGroup [mixedGroup]))
  = [ ("pushups", true, Some false); ("dips", false, Some true);
      ("stretch", false, None) ]
  /\ isFulfilled (evaluateRequirement mixedGroup [mixedGroup]) = false.
Proof. split; reflexivity. Qed.

Example evaluateRequirement_group_vacuous :
  isFulfilled (evaluateRequirement optionalOnlyGroup [optionalOnlyGroup]) = true
  /\ isFulfilled (evaluateRequirement (groupReq "empty" None [] false None) [])
     = true.
Proof. split; reflexivity. Qed.

(** ** Updating a requirement *)

Lemma recursiveUpdateNode_eq (reqId : string) (updates : RequirementUpdates)
  (req : Requirement) :
  recursiveUpdateNode reqId updates req =
  if String.eqb (id req) reqId then
    if truthyBool (isDisabled req) then req else applyUpdates req updates
  else
    match children req with
    | Some cs => set_children req (Some (recursiveUpdate reqId updates cs))
    | None => req
    end.
Proof. destruct req; reflexivity. Qed.

(** A disabled node with the searched identifier is handed back as it is. *)
Lemma recursiveUpdateNode_disabled (reqId : string)
  (updates : RequirementUpdates) (req : Requirement) :
  id req = reqId -> isDisabled req = Some true ->
  recursiveUpdateNode reqId updates req = req.
Proof.
  intros Hid Hdis. rewrite recursiveUpdateNode_eq, Hid, String.eqb_refl, Hdis.
  reflexivity.
Qed.

(** Below a node with another identifier the search goes on in its children. *)
Lemma recursiveUpdateNode_descend (reqId : string)
  (updates : RequirementUpdates) (req : Requirement) :
  id req <> reqId ->
  childList (recursiveUpdateNode reqId updates req)
  = recursiveUpdate reqId updates (childList req).
Proof.
  intro Hid. rewrite recursiveUpdateNode_eq.
  destruct (String.eqb_spec (id req) reqId) as [Heq|_]; [contradiction|].
  unfold childList. destruct (children req) as [cs|] eqn:Hkids; simpl;
    [reflexivity | rewrite Hkids; reflexivity].
Qed.

Lemma recursiveUpdate_keeps_disabled (reqId : string)
  (updates : RequirementUpdates) (path : list nat) :
  forall (rs : list Requirement) (r : Requirement),
    nodeAt path rs = Some r ->
    id r = reqId -> isDisabled r = Some true ->
    Forall (fun a => id a <> reqId) (ancestorsAt path rs) ->
    nodeAt path (recursiveUpdate reqId updates rs) = Some r.
Proof.
  induction path as [|i rest IH]; intros rs r Hat Hid Hdis Hanc;
    [discriminate Hat|].
  simpl in *. unfold recursiveUpdate at 1. rewrite nth_error_map.
  destruct (nth_error rs i) as [a|]; [simpl|discriminate Hat].
  destruct rest as [|j rest].
  - injection Hat as ->. f_equal.
    apply recursiveUpdateNode_disabled; assumption.
  - apply Forall_cons_iff in Hanc as [Ha Hrest].
    rewrite (recursiveUpdateNode_descend _ updates a Ha).
    apply IH; assumption.
Qed.

(** C9. In a RUNNING or PAUSED task, an update that targets a requirement
    whose [isDisabled] is true before the update is not applied to it: the
    evaluation pass that follows starts from a tree that holds, at the
    position of that requirement, the node with its original fields
    (identifiers being unique, no ancestor of the node carries the targeted
    identifier). *)
Theorem updateRequirementValue_rejects_disabled (t : Task) (reqId : string)
  (updates : RequirementUpdates) (now : Z) (path : list nat)
  (r : Requirement) :
  status t = RUNNING \/ status t = PAUSED ->
  nodeAt path (requirements t) = Some r ->
  id r = reqId ->
  isDisabled r = Some true ->
  Forall (fun a => id a <> reqId) (ancestorsAt path (requirements t)) ->
  exists edited,
    updateRequirementValue t reqId updates now = evaluateTaskState edited now
    /\ edited = set_requirements t (recursiveUpdate reqId updates (requirements t))
    /\ nodeAt path (requirements edited) = Some r.
Proof.
  intros Hs Hat Hid Hdis Hanc.
  exists (set_requirements t (recursiveUpdate reqId updates (requirements t))).
  split; [|split; [reflexivity|]].
  - unfold updateRequirementValue, cloneTask.
    destruct Hs as [Hs|Hs]; rewrite Hs; reflexivity.
  - simpl. apply recursiveUpdate_keeps_disabled; assumption.
Qed.

Lemma updateRequirementValue_rejects_disabled_witness :
  exists edited,
    updateRequirementValue pausedTask "swim" toggleOn 1000
    = evaluateTaskState edited 1000
    /\ edited = set_requirements pausedTask
                  (recursiveUpdate "swim" toggleOn (requirements pausedTask))
    /\ nodeAt [1%nat; 0%nat] (requirements edited) = Some lockedSwim.
Proof.
  apply (updateRequirementValue_rejects_disabled pausedTask "swim" toggleOn
           1000 [1%nat; 0%nat] lockedSwim).
  - right; reflexivity.
  - reflexivity.
  - reflexivity.
  - reflexivity.
  - simpl. constructor; [discriminate | constructor].
Defined.

(** The scenarios of the specification. *)

Example updateRequirementValue_xor_scenario :
  let t := updateRequirementValue runOrSwim "run" (markFulfilled true) 1 in
  map (fun r => (id r, isFulfilled r, isDisabled r)) (requirements t)
  = [ ("run", true, Some false); ("swim", false, Some true) ]
  /\ status t = RUNNING.
Proof. split; reflexivity. Qed.

Example updateRequirementValue_counter_scenario :
  map isFulfilled (requirements (Nat.iter 19 plusOne pushupsTask)) = [false]
  /\ status (Nat.iter 19 plusOne pushupsTask) = RUNNING
  /\ map isFulfilled (requirements (Nat.iter 20 plusOne pushupsTask)) = [true]
  /\ status (Nat.iter 20 plusOne pushupsTask) = COMPLETED.
Proof. vm_compute. repeat split; reflexivity. Qed.

(** ** Task evaluator: the requirement tree *)

Lemma evaluateTaskState_requirements (t : Task) (now : Z) :
  requirements (evaluateTaskState t now) =
  match status t with
  | IDLE | LOCKED => requirements t
  | _ => mapInPlace evaluateRequirement [] (requirements t)
  end.
Proof.
  unfold evaluateTaskState, cloneTask.
  destruct (truthyNumber (timeLimit t) && _);
    destruct (status t) eqn:Hs; simpl; rewrite ?Hs; simpl; try reflexivity;
    match goal with
    | |- context [if ?c then _ else _] => destruct c; reflexivity
    end.
Qed.

(** C1. The evaluator is not idempotent on [raceTask]: the first pass leaves
    "run" enabled because "swim" is not yet fulfilled when "run" is visited,
    and a second pass over that result disables "run". *)
Theorem evaluateTaskState_second_pass_differs :
  let once := evaluateTaskState raceTask 1 in
  let twice := evaluateTaskState once 2 in
  map isDisabled (requirements once) = [Some false; Some false]
  /\ map isFulfilled (requirements once) = [false; true]
  /\ map isDisabled (requirements twice) = [Some true; Some false]
  /\ ~ sameExceptUpdatedAt twice once.
Proof.
  cbv zeta. repeat split; try reflexivity.
  unfold sameExceptUpdatedAt. vm_compute. discriminate.
Qed.

(** The defect is confined to XOR resolution: where no node carries an XOR
    label, a second pass changes nothing but [updatedAt]. *)
Lemma evaluateNumeric_idempotent (r : Requirement) :
  evaluateNumeric (evaluateNumeric r) = evaluateNumeric r.
Proof.
  destruct r as [i ty ti de op xg cv tv ch fu di [limit|] cd];
    unfold evaluateNumeric; simpl;
    [destruct (limit <? orDefault cv 0) eqn:Hlim; simpl; rewrite ?Hlim|];
    reflexivity.
Qed.

Lemma mapInPlace_idempotent (kids : list Requirement) :
  Forall (fun c => forall s1 s2,
              evaluateRequirement (evaluateRequirement c s1) s2
              = evaluateRequirement c s1) kids ->
  forall d1 d2,
    mapInPlace evaluateRequirement d2 (mapInPlace evaluateRequirement d1 kids)
    = mapInPlace evaluateRequirement d1 kids.
Proof.
  induction 1 as [|c rest Hc _ IH]; intros d1 d2; simpl; [reflexivity|].
  rewrite Hc, IH. reflexivity.
Qed.

Lemma evaluateRequirement_idempotent_without_xor (r : Requirement) :
  Forall (fun n => truthyString (xorGroup n) = false) (nodesOf r) ->
  forall s1 s2,
    evaluateRequirement (evaluateRequirement r s1) s2
    = evaluateRequirement r s1.
Proof.
  induction r as [r IH] using Requirement_ind. intros Hall s1 s2.
  rewrite nodesOf_eq in Hall. apply Forall_cons_iff in Hall as [Hlab Hbelow].
  assert (Hfree : forall x s, xorGroup x = xorGroup r -> xorLockedBy x s = false)
    by (intros x s Hx; unfold xorLockedBy; rewrite Hx, Hlab; reflexivity).
  assert (Hax : forall x, xorGroup x = xorGroup r -> afterXor x = x)
    by (intros x Hx; unfold afterXor; rewrite Hx, Hlab; reflexivity).
  destruct (evaluateRequirement_static r s1) as (_ & Hty' & _ & _ & _ & Hx' & _).
  rewrite (evaluateRequirement_free _ s2 (Hfree _ _ Hx')), Hty', (Hax _ Hx').
  rewrite (evaluateRequirement_free _ s1 (Hfree _ _ eq_refl)), (Hax _ eq_refl).
  destruct (type r) eqn:Hty.
  - reflexivity.
  - apply evaluateNumeric_idempotent.
  - unfold childList in IH, Hbelow.
    destruct (children r) as [[|c cs]|] eqn:Hch.
    + cbn [children set_isFulfilled]. rewrite Hch. reflexivity.
    + cbv zeta. cbn [children set_isFulfilled set_children].
      assert (Hidem : mapInPlace evaluateRequirement []
                        (mapInPlace evaluateRequirement [] (c :: cs))
                      = mapInPlace evaluateRequirement [] (c :: cs)).
      { apply mapInPlace_idempotent.
        apply Forall_flat_map_nodes in Hbelow.
        apply (Forall_impl_In _ _ _ Hbelow). exact IH. }
      destruct (mapInPlace evaluateRequirement [] (c :: cs)) as [|k ks] eqn:HK;
        [discriminate HK|].
      rewrite Hidem. reflexivity.
    + cbn [children set_isFulfilled]. rewrite Hch. reflexivity.
Qed.

(** X16. On a task none of whose nodes carries a non-empty [xorGroup], a
    second pass changes nothing but [updatedAt]. *)
Lemma evaluateTaskState_idempotent_without_xor (t : Task) (now1 now2 : Z) :
  withoutXor (requirements t) = true ->
  sameExceptUpdatedAt (evaluateTaskState (evaluateTaskState t now1) now2)
    (evaluateTaskState t now1).
Proof.
  intro Hno. unfold sameExceptUpdatedAt.
  assert (Hidem : mapInPlace evaluateRequirement []
                    (mapInPlace evaluateRequirement [] (requirements t))
                  = mapInPlace evaluateRequirement [] (requirements t)).
  { apply mapInPlace_idempotent. unfold withoutXor, allNodes in Hno.
    assert (Hall : Forall (fun n => truthyString (xorGroup n) = false)
                     (flat_map nodesOf (requirements t))).
    { apply Forall_forall. intros n Hn.
      apply negb_true_iff. exact (proj1 (forallb_forall _ _) Hno n Hn). }
    apply Forall_flat_map_nodes in Hall.
    apply (Forall_impl_In _ _ _ Hall).
    apply Forall_forall. intros x _ Hx. apply evaluateRequirement_idempotent_without_xor, Hx. }
  destruct t as [ti tt td st rs tl el ca ua lk cd]. cbn [requirements] in Hidem.
  unfold evaluateTaskState, cloneTask.
  cbn -[allRelevantFulfilled mapInPlace Z.leb].
  destruct (truthyNumber tl && (orDefault tl 0 <=? el)) eqn:Hov;
    destruct st; cbn -[allRelevantFulfilled mapInPlace Z.leb];
    rewrite ?Hov; cbn -[allRelevantFulfilled mapInPlace Z.leb];
    rewrite ?Hidem; try reflexivity;
    destruct (allRelevantFulfilled (mapInPlace evaluateRequirement [] rs))
      eqn:Hdone;
    cbn -[allRelevantFulfilled mapInPlace Z.leb];
    rewrite ?Hov; cbn -[allRelevantFulfilled mapInPlace Z.leb];
    rewrite ?Hidem, ?Hdone; reflexivity.
Qed.

(** C5. A NUMERIC node without XOR label that is flagged disabled and whose
    value does not exceed its limit keeps [isDisabled = true] through the
    pass (and comes out fulfilled). *)
Theorem evaluateTaskState_breach_flag_kept :
  limitBreached recoveredCounter = false
  /\ xorLockedBy recoveredCounter (requirements recoveredTask) = false
  /\ map isDisabled (requirements (evaluateTaskState recoveredTask 1))
     = [Some true]
  /\ map isFulfilled (requirements (evaluateTaskState recoveredTask 1))
     = [true].
Proof. repeat split; reflexivity. Qed.

(** The flag is kept on every unlabelled NUMERIC node within its limit ... *)
Lemma evaluateRequirement_numeric_flag_kept (r : Requirement)
  (sibs : list Requirement) :
  type r = NUMERIC -> truthyString (xorGroup r) = false ->
  limitBreached r = false ->
  isDisabled (evaluateRequirement r sibs) = isDisabled r.
Proof.
  intros Hty Hlab Hlim.
  assert (Hfree : xorLockedBy r sibs = false)
    by (unfold xorLockedBy; rewrite Hlab; reflexivity).
  rewrite (evaluateRequirement_free _ _ Hfree), Hty.
  unfold afterXor. rewrite Hlab. unfold limitBreached in Hlim.
  destruct r as [i ty ti de op xg cv tv ch fu di vl cd]; simpl in *.
  unfold evaluateNumeric; simpl.
  destruct vl as [limit|]; simpl; [rewrite Hlim|]; reflexivity.
Qed.

(** ... while it is cleared on a labelled one that no sibling locks. *)
Lemma evaluateRequirement_numeric_flag_cleared (r : Requirement)
  (sibs : list Requirement) :
  type r = NUMERIC -> truthyString (xorGroup r) = true ->
  xorLockedBy r sibs = false -> limitBreached r = false ->
  isDisabled (evaluateRequirement r sibs) = Some false.
Proof.
  intros Hty Hlab Hfree Hlim.
  rewrite (evaluateRequirement_free _ _ Hfree), Hty.
  unfold afterXor. rewrite Hlab. unfold limitBreached in Hlim.
  destruct r as [i ty ti de op xg cv tv ch fu di vl cd]; simpl in *.
  unfold evaluateNumeric; simpl.
  destruct vl as [limit|]; simpl; [rewrite Hlim|]; reflexivity.
Qed.

(** ** Disabled and fulfilled *)

(** C2, as stated, fails: in [staleChildrenTask] the supplied flags of
    "warmup" (an unlabelled BOOLEAN) and of "bench" (a child of the XOR-locked
    group "gym") are both true and leave the pass as they are. *)
Lemma evaluateTaskState_keeps_supplied_flags :
  let out := allNodes (requirements (evaluateTaskState staleChildrenTask 1)) in
  In (booleanReq "warmup" None true (Some true)) out
  /\ In (booleanReq "bench" (Some "lift") true (Some true)) out
  /\ existsb disabledAndFulfilled out = true.
Proof.
  cbv zeta. vm_compute. repeat split; auto 10.
Qed.

(** The pass does not read the [isFulfilled] of a NUMERIC or GROUP node it
    evaluates. *)
Lemma evaluateRequirement_overwrites_isFulfilled (r : Requirement)
  (sibs : list Requirement) (v : bool) :
  type r <> BOOLEAN ->
  evaluateRequirement (set_isFulfilled r v) sibs = evaluateRequirement r sibs.
Proof.
  intro Hty.
  assert (Hsame : xorLockedBy (set_isFulfilled r v) sibs = xorLockedBy r sibs)
    by reflexivity.
  destruct (xorLockedBy r sibs) eqn:Hl.
  - rewrite (evaluateRequirement_locked _ _ Hsame),
      (evaluateRequirement_locked _ _ Hl). reflexivity.
  - rewrite (evaluateRequirement_free _ _ Hsame),
      (evaluateRequirement_free _ _ Hl).
    cbn [type children set_isFulfilled].
    assert (Hax : afterXor (set_isFulfilled r v)
                  = set_isFulfilled (afterXor r) v).
    { unfold afterXor. cbn [xorGroup set_isFulfilled].
      destruct (truthyString (xorGroup r)); reflexivity. }
    rewrite Hax.
    destruct (type r); [contradiction | |].
    + unfold evaluateNumeric. cbn [valueLimit set_isFulfilled].
      destruct (valueLimit (afterXor r)) as [limit|];
        [destruct (limit <? _)|]; reflexivity.
    + destruct (children r) as [[|c cs]|]; reflexivity.
Qed.

(** Nor the [isDisabled] of a node that carries an XOR label. *)
Lemma evaluateRequirement_overwrites_isDisabled (r : Requirement)
  (sibs : list Requirement) (v : option bool) :
  truthyString (xorGroup r) = true ->
  evaluateRequirement (set_isDisabled r v) sibs = evaluateRequirement r sibs.
Proof.
  intro Hlab. rewrite !evaluateRequirement_eq. unfold xorStep.
  cbn [xorGroup type children set_isDisabled]. rewrite Hlab.
  change (xorWinner (set_isDisabled r v) sibs) with (xorWinner r sibs).
  destruct (xorWinner r sibs); destruct r; reflexivity.
Qed.

Lemma nodesOf_self (r : Requirement) : In r (nodesOf r).
Proof. rewrite nodesOf_eq. now left. Qed.

(** What holds of the result of every evaluation of a node whose subtree
    meets a condition holds of every node the evaluation reached below. *)
Lemma evaluateRequirement_reached_below (P : Requirement -> Prop)
  (q : Requirement -> bool) :
  (forall r sibs, P r -> q (evaluateRequirement r sibs) = true) ->
  forall r sibs,
    Forall P (nodesOf r) ->
    Forall (fun l => forallb q l = true)
      (walkedBelow (evaluateRequirement r sibs)).
Proof.
  intros Hroot r.
  induction r as [r IH] using Requirement_ind. intros sibs HP.
  rewrite walkedBelow_eq.
  destruct (evaluateRequirement_static r sibs) as (_ & Hty' & _).
  rewrite Hty'.
  destruct (type r) eqn:Hty; try constructor.
  destruct (xorLockedBy r sibs) eqn:Hl.
  - rewrite (evaluateRequirement_locked _ _ Hl).
    apply andb_true_iff in Hl as [Hlab _].
    unfold xorLocked. simpl. rewrite Hlab. constructor.
  - destruct (xorLocked (evaluateRequirement r sibs)); [constructor|].
    destruct (childList r) as [|c cs] eqn:Hkids.
    + rewrite (evaluateRequirement_group_empty _ _ Hty Hl Hkids). simpl.
      rewrite afterXor_children. unfold childList in Hkids.
      destruct (children r) as [l|]; [subst l|constructor].
      simpl. constructor; [reflexivity | constructor].
    + assert (Hch : children r = Some (c :: cs)).
      { unfold childList in Hkids. destruct (children r); [|discriminate].
        now f_equal. }
      rewrite (evaluateRequirement_group_kids _ _ _ Hty Hl Hch)
        by discriminate.
      cbn [children set_isFulfilled set_children].
      rewrite nodesOf_eq, Hkids in HP.
      apply Forall_cons_iff in HP as [_ HP].
      apply Forall_flat_map_nodes in HP.
      constructor.
      * apply forallb_forall. intros k Hk.
        apply In_nth_error in Hk as [m Hm].
        destruct (mapInPlace_nth _ _ _ _ _ Hm) as (r0 & Hr0 & ->).
        apply Hroot.
        pose proof (proj1 (Forall_forall _ _) HP r0 (nth_error_In _ _ Hr0))
          as H0.
        exact (proj1 (Forall_forall _ _) H0 r0 (nodesOf_self r0)).
      * apply mapInPlace_flat_map.
        apply Forall_forall. intros x Hx sibs'.
        apply (proj1 (Forall_forall _ _) IH x Hx).
        exact (proj1 (Forall_forall _ _) HP x Hx).
Qed.

Lemma evaluateTaskState_reached_all (P : Requirement -> Prop)
  (q : Requirement -> bool) (t : Task) (now : Z) :
  (forall r sibs, P r -> q (evaluateRequirement r sibs) = true) ->
  status t <> IDLE -> status t <> LOCKED ->
  Forall P (allNodes (requirements t)) ->
  forall r, reached (requirements (evaluateTaskState t now)) r -> q r = true.
Proof.
  intros Hroot Hidle Hlocked HP r (sibs & Hs & Hr).
  assert (Hreq : requirements (evaluateTaskState t now)
                 = mapInPlace evaluateRequirement [] (requirements t)).
  { rewrite evaluateTaskState_requirements.
    destruct (status t); try reflexivity; contradiction. }
  rewrite Hreq in Hs. unfold allNodes in HP.
  apply Forall_flat_map_nodes in HP.
  assert (Hall : Forall (fun l => forallb q l = true)
                   (walkedLists
                      (mapInPlace evaluateRequirement [] (requirements t)))).
  { unfold walkedLists. constructor.
    - apply forallb_forall. intros k Hk.
      apply In_nth_error in Hk as [m Hm].
      destruct (mapInPlace_nth _ _ _ _ _ Hm) as (r0 & Hr0 & ->).
      apply Hroot.
      pose proof (proj1 (Forall_forall _ _) HP r0 (nth_error_In _ _ Hr0))
        as H0.
      exact (proj1 (Forall_forall _ _) H0 r0 (nodesOf_self r0)).
    - apply mapInPlace_flat_map.
      apply (Forall_impl_In _ _ _ HP).
      apply Forall_forall. intros x _ Hx sibs'.
      apply (evaluateRequirement_reached_below P q Hroot). exact Hx. }
  pose proof (proj1 (Forall_forall _ _) Hall sibs Hs) as Hl.
  exact (proj1 (forallb_forall _ _) Hl r Hr).
Qed.

(** Whatever flags a node is handed in with, it does not come out disabled
    and fulfilled if it carries an XOR label or is a NUMERIC node beyond its
    limit. *)
Lemma evaluateRequirement_written_flags (r : Requirement)
  (sibs : list Requirement) :
  negb ((truthyString (xorGroup (evaluateRequirement r sibs))
         || breachedNumeric (evaluateRequirement r sibs))
        && disabledAndFulfilled (evaluateRequirement r sibs)) = true.
Proof.
  destruct (xorLockedBy r sibs) eqn:Hl.
  - rewrite (evaluateRequirement_locked _ _ Hl).
    unfold disabledAndFulfilled. simpl. now rewrite !andb_false_r.
  - rewrite (evaluateRequirement_free _ _ Hl).
    unfold afterXor, breachedNumeric, limitBreached, disabledAndFulfilled,
      evaluateNumeric.
    destruct r as [i ty ti de op xg cv tv ch fu di vl cd]; simpl.
    destruct ty; simpl.
    + destruct (truthyString xg) eqn:Hlab; simpl; rewrite ?Hlab; reflexivity.
    + destruct (truthyString xg) eqn:Hlab; simpl;
        (destruct vl as [limit|]; simpl;
         [destruct (limit <? orDefault cv 0) eqn:Hlim; simpl;
          rewrite ?Hlab, ?Hlim|]); simpl; rewrite ?Hlab; simpl;
        rewrite ?andb_false_r; reflexivity.
    + destruct ch as [[|c cs]|]; destruct (truthyString xg) eqn:Hlab; simpl;
        rewrite ?Hlab; reflexivity.
Qed.

(** A node that is not handed in as [keepsSuppliedDisabled] describes does
    not come out disabled and fulfilled. *)
Lemma evaluateRequirement_not_both (r : Requirement)
  (sibs : list Requirement) :
  keepsSuppliedDisabled r = false ->
  negb (disabledAndFulfilled (evaluateRequirement r sibs)) = true.
Proof.
  intro Hin. destruct (xorLockedBy r sibs) eqn:Hl.
  - rewrite (evaluateRequirement_locked _ _ Hl).
    unfold disabledAndFulfilled. simpl. rewrite ?andb_false_r. reflexivity.
  - rewrite (evaluateRequirement_free _ _ Hl).
    unfold afterXor, keepsSuppliedDisabled, limitBreached,
      disabledAndFulfilled, evaluateNumeric in *.
    destruct r as [i ty ti de op xg cv tv ch fu di vl cd]; simpl in *.
    destruct (truthyString xg) eqn:Hlab; simpl in *.
    + destruct ty; simpl; try reflexivity;
        [ destruct vl as [limit|]; simpl;
          [destruct (limit <? orDefault cv 0); simpl|]; reflexivity
        | destruct ch as [[|c cs]|]; reflexivity ].
    + destruct (truthyBool di) eqn:Hdi; simpl in *.
      * destruct ty; simpl in *.
        -- rewrite Hin, Hdi. reflexivity.
        -- destruct vl as [limit|]; simpl in *.
           ++ destruct (limit <? orDefault cv 0); simpl in *;
                [reflexivity|].
              rewrite andb_true_r in Hin. rewrite Hin, Hdi. reflexivity.
           ++ rewrite andb_true_r in Hin. rewrite Hin, Hdi. reflexivity.
        -- discriminate Hin.
      * destruct ty; simpl; rewrite ?Hdi; try reflexivity;
          [ destruct vl as [limit|]; simpl;
            [destruct (limit <? orDefault cv 0); simpl|]; rewrite ?Hdi;
            reflexivity
          | destruct ch as [[|c cs]|]; simpl; rewrite Hdi; reflexivity ].
Qed.

Lemma disabledAndFulfilled_false (r : Requirement) :
  disabledAndFulfilled r = false ->
  ~ (isDisabled r = Some true /\ isFulfilled r = true).
Proof.
  unfold disabledAndFulfilled. intros H [Hd Hf].
  rewrite Hd, Hf in H. discriminate H.
Qed.

(** C2, amended. After [evaluateTaskState] on a task that is neither IDLE
    nor LOCKED, whatever flags were supplied:
    - no node the pass reached that carries an XOR label, or that is a NUMERIC
      node beyond its limit, is both disabled and fulfilled;
    - if no node without XOR label was supplied disabled (for a BOOLEAN node:
      disabled and fulfilled; for a NUMERIC node: disabled, at or above its
      target and within its limit), no node the pass reached, at any depth, is
      both disabled and fulfilled.
    Of the supplied flags, the evaluation of a node overwrites [isFulfilled]
    when the node is NUMERIC or GROUP, and [isDisabled] when the node carries
    an XOR label. *)
Theorem evaluateTaskState_disabled_not_fulfilled (t : Task) (now : Z) :
  status t <> IDLE -> status t <> LOCKED ->
  (forall r,
      reached (requirements (evaluateTaskState t now)) r ->
      truthyString (xorGroup r) = true \/ breachedNumeric r = true ->
      ~ (isDisabled r = Some true /\ isFulfilled r = true))
  /\ (existsb keepsSuppliedDisabled (allNodes (requirements t)) = false ->
      forall r,
        reached (requirements (evaluateTaskState t now)) r ->
        ~ (isDisabled r = Some true /\ isFulfilled r = true))
  /\ (forall r sibs v,
        type r <> BOOLEAN ->
        evaluateRequirement (set_isFulfilled r v) sibs
        = evaluateRequirement r sibs)
  /\ (forall r sibs v,
        truthyString (xorGroup r) = true ->
        evaluateRequirement (set_isDisabled r v) sibs
        = evaluateRequirement r sibs).
Proof.
  intros Hidle Hlocked. split; [|split; [|split]].
  - intros r Hr Hkind.
    pose proof (evaluateTaskState_reached_all (fun _ => True)
                  (fun n => negb ((truthyString (xorGroup n)
                                   || breachedNumeric n)
                                  && disabledAndFulfilled n))
                  t now
                  (fun r0 sibs _ => evaluateRequirement_written_flags r0 sibs)
                  Hidle Hlocked) as Hall.
    specialize (Hall ltac:(apply Forall_forall; intros; exact I) r Hr).
    cbv beta in Hall. apply negb_true_iff in Hall.
    apply disabledAndFulfilled_false.
    destruct Hkind as [Hk|Hk]; rewrite Hk in Hall; simpl in Hall;
      rewrite ?orb_true_r in Hall; exact Hall.
  - intros Hin r Hr.
    pose proof (evaluateTaskState_reached_all
                  (fun n => keepsSuppliedDisabled n = false)
                  (fun n => negb (disabledAndFulfilled n))
                  t now evaluateRequirement_not_both Hidle Hlocked) as Hall.
    assert (HP : Forall (fun n => keepsSuppliedDisabled n = false)
                   (allNodes (requirements t))).
    { apply Forall_forall. intros n Hn.
      destruct (keepsSuppliedDisabled n) eqn:Hk; [|reflexivity].
      assert (Hex : existsb keepsSuppliedDisabled
                      (allNodes (requirements t)) = true)
        by (apply existsb_exists; exists n; split; assumption).
      rewrite Hin in Hex. discriminate Hex. }
    specialize (Hall HP r Hr). cbv beta in Hall.
    apply negb_true_iff in Hall. now apply disabledAndFulfilled_false.
  - apply evaluateRequirement_overwrites_isFulfilled.
  - apply evaluateRequirement_overwrites_isDisabled.
Qed.

Lemma evaluateTaskState_disabled_not_fulfilled_witness :
  reached (requirements (evaluateTaskState suppliedFlagsTask 1000))
    (booleanReq "run" (Some "cardio") false (Some true))
  /\ reached (requirements (evaluateTaskState suppliedFlagsTask 1000))
       (numericReq "pushups" None (Some 6) (Some 3) (Some 5) false (Some true))
  /\ forall r,
       reached (requirements (evaluateTaskState suppliedFlagsTask 1000)) r ->
       ~ (isDisabled r = Some true /\ isFulfilled r = true).
Proof.
  split; [|split].
  - eexists. split; [left; reflexivity|]. vm_compute. left. reflexivity.
  - eexists. split; [right; left; reflexivity|]. vm_compute. left. reflexivity.
  - apply (proj1 (proj2 (evaluateTaskState_disabled_not_fulfilled
                           suppliedFlagsTask 1000
                           ltac:(discriminate) ltac:(discriminate)))).
    reflexivity.
Defined.

(** The evaluation of a node without XOR label never writes
    [isDisabled = false]: a counter at its target and a group of fulfilled
    children, both supplied disabled, come out disabled and fulfilled. *)
Example evaluateTaskState_keeps_unlabelled_disabled :
  requirements (evaluateTaskState disabledUnlabelledTask 1000)
  = [ numericReq "laps" None (Some 3) (Some 3) None true (Some true);
      groupReq "core" None [ booleanReq "plank" None true None ] true
        (Some true) ].
Proof. reflexivity. Qed.

(** ** XOR exclusivity *)

(** C3, as stated, fails: in [staleChildrenTask] (RUNNING) the group "gym" is
    locked by its fulfilled XOR sibling "park", so its children are not
    visited, and "bench" and "squat", which share the label "lift", both stay
    fulfilled. *)
Lemma evaluateTaskState_xor_not_exclusive_below_locked :
  status staleChildrenTask = RUNNING
  /\ exists sibs,
       In sibs (siblingLists
                  (requirements (evaluateTaskState staleChildrenTask 1)))
       /\ ~ XorExclusive sibs.
Proof.
  split; [reflexivity|].
  exists [ booleanReq "bench" (Some "lift") true (Some true);
           booleanReq "squat" (Some "lift") true None ].
  split.
  - vm_compute. auto.
  - intro H.
    apply (H 0%nat 1%nat (booleanReq "bench" (Some "lift") true (Some true))
             (booleanReq "squat" (Some "lift") true None));
      try reflexivity; try discriminate.
    split; reflexivity.
Qed.

Lemma xorWinner_found (req s : Requirement) (sibs : list Requirement) :
  In s sibs -> isXorWinnerOver req s = true ->
  xorWinner req sibs <> None.
Proof.
  intros Hin Hw Hnone. unfold xorWinner in Hnone.
  pose proof (find_none _ _ Hnone s Hin) as Hs. congruence.
Qed.

(** In the result of a pass, a fulfilled node locks every later sibling of
    its XOR group that has another identifier. *)
Lemma mapInPlace_locks_later (rs : list Requirement) (i j : nat)
  (a b : Requirement) :
  (i < j)%nat ->
  nth_error (mapInPlace evaluateRequirement [] rs) i = Some a ->
  nth_error (mapInPlace evaluateRequirement [] rs) j = Some b ->
  id a <> id b ->
  truthyString (xorGroup b) = true -> xorGroup a = xorGroup b ->
  isFulfilled a = true ->
  isFulfilled b = false.
Proof.
  intros Hij Ha Hb Hid Hlab Hsame Hfa.
  destruct (mapInPlace_nth _ _ _ _ _ Hb) as (c & _ & Hbc). simpl in Hbc.
  set (sibs := firstn j (mapInPlace evaluateRequirement [] rs) ++ skipn j rs)
    in Hbc.
  destruct (evaluateRequirement_static c sibs) as (Hcid & _ & _ & _ & _ & Hcx & _).
  rewrite <- Hbc in Hcid, Hcx.
  assert (Hin : In a sibs).
  { apply in_or_app. left. apply nth_error_In with (n := i).
    rewrite nth_error_firstn.
    destruct (Nat.ltb_spec i j); [exact Ha | lia]. }
  assert (Hw : isXorWinnerOver c a = true).
  { unfold isXorWinnerOver. rewrite Hfa, <- Hcid, <- Hcx, Hsame.
    destruct (String.eqb_spec (id a) (id b)) as [Heq|_]; [contradiction|].
    destruct (xorGroup b) as [g|]; [|discriminate Hlab].
    simpl. rewrite String.eqb_refl. reflexivity. }
  assert (Hlock : xorLockedBy c sibs = true).
  { unfold xorLockedBy. rewrite <- Hcx, Hlab.
    pose proof (xorWinner_found c a sibs Hin Hw).
    destruct (xorWinner c sibs); [reflexivity | contradiction]. }
  rewrite Hbc, (evaluateRequirement_locked _ _ Hlock). reflexivity.
Qed.

Lemma mapInPlace_exclusive (rs : list Requirement) :
  XorExclusive (mapInPlace evaluateRequirement [] rs).
Proof.
  intros i j a b Hij Ha Hb Hid Hlab Hsame [Hfa Hfb].
  destruct (Nat.lt_total i j) as [Hlt|[Heq|Hgt]]; [|contradiction|].
  - pose proof (mapInPlace_locks_later rs i j a b Hlt Ha Hb Hid
                  ltac:(rewrite <- Hsame; exact Hlab) Hsame Hfa).
    congruence.
  - pose proof (mapInPlace_locks_later rs j i b a Hgt Hb Ha
                  ltac:(congruence) Hlab ltac:(congruence) Hfb).
    congruence.
Qed.

Lemma XorExclusive_nil : XorExclusive [].
Proof. intros [|i] j a b _ Ha; discriminate Ha. Qed.

(** Every array walked below an evaluated node is exclusive. *)
Lemma evaluateRequirement_walked_exclusive (r : Requirement) :
  forall sibs,
    Forall XorExclusive (walkedBelow (evaluateRequirement r sibs)).
Proof.
  induction r as [r IH] using Requirement_ind. intro sibs.
  rewrite walkedBelow_eq.
  destruct (evaluateRequirement_static r sibs) as (_ & Hty' & _).
  rewrite Hty'.
  destruct (type r) eqn:Hty; try constructor.
  destruct (xorLockedBy r sibs) eqn:Hl.
  - (* a locked group comes out labelled and disabled *)
    rewrite (evaluateRequirement_locked _ _ Hl).
    apply andb_true_iff in Hl as [Hlab _].
    unfold xorLocked. simpl. rewrite Hlab. constructor.
  - destruct (xorLocked (evaluateRequirement r sibs)); [constructor|].
    destruct (childList r) as [|c cs] eqn:Hkids.
    + rewrite (evaluateRequirement_group_empty _ _ Hty Hl Hkids). simpl.
      rewrite afterXor_children. unfold childList in Hkids.
      destruct (children r) as [l|]; [subst l|constructor].
      simpl. constructor; [apply XorExclusive_nil | constructor].
    + assert (Hch : children r = Some (c :: cs)).
      { unfold childList in Hkids. destruct (children r); [|discriminate].
        now f_equal. }
      rewrite (evaluateRequirement_group_kids _ _ _ Hty Hl Hch)
        by discriminate.
      cbn [children set_isFulfilled set_children].
      constructor; [apply mapInPlace_exclusive|].
      apply mapInPlace_flat_map. exact IH.
Qed.

(** C3, amended. For a task whose status is neither IDLE nor LOCKED, after
    [evaluateTaskState] no two siblings that have different identifiers and
    share a non-empty [xorGroup] are both fulfilled, among the top-level
    requirements and among the children of every GROUP node that the pass
    reached and did not lock. *)
Theorem evaluateTaskState_xor_exclusive (t : Task) (now : Z) :
  status t <> IDLE -> status t <> LOCKED ->
  forall sibs,
    In sibs (walkedLists (requirements (evaluateTaskState t now))) ->
    XorExclusive sibs.
Proof.
  intros Hidle Hlocked.
  assert (Hreq : requirements (evaluateTaskState t now)
                 = mapInPlace evaluateRequirement [] (requirements t)).
  { rewrite evaluateTaskState_requirements.
    destruct (status t); try reflexivity; contradiction. }
  rewrite Hreq. apply Forall_forall. unfold walkedLists.
  constructor; [apply mapInPlace_exclusive|].
  apply mapInPlace_flat_map. apply Forall_forall.
  intros r _. apply evaluateRequirement_walked_exclusive.
Qed.

Lemma evaluateTaskState_xor_exclusive_witness :
  List.length (walkedLists (requirements (evaluateTaskState cardioTask 1000)))
  = 2%nat
  /\ forall sibs,
       In sibs (walkedLists (requirements (evaluateTaskState cardioTask 1000))) ->
       XorExclusive sibs.
Proof.
  split; [reflexivity|].
  apply (evaluateTaskState_xor_exclusive cardioTask 1000); discriminate.
Defined.

(** * Further properties of the engine *)

(** ** What a pass leaves alone *)

Lemma mapInPlace_map {B : Type} (g : Requirement -> B)
  (f : Requirement -> list Requirement -> Requirement)
  (todo : list Requirement) :
  Forall (fun c => forall sibs, g (f c sibs) = g c) todo ->
  forall done, map g (mapInPlace f done todo) = map g todo.
Proof.
  induction 1 as [|c rest Hc _ IH]; intro done; simpl; [reflexivity|].
  now rewrite Hc, IH.
Qed.

Lemma eraseFlags_eq (r : Requirement) :
  eraseFlags r =
  mkRequirement (id r) (type r) (title r) (description r) (isOptional r)
    (xorGroup r) (currentValue r) (targetValue r)
    (option_map (map eraseFlags) (children r))
    false None (valueLimit r) (customData r).
Proof. destruct r as [? ? ? ? ? ? ? ? [cs|] ? ? ? ?]; reflexivity. Qed.

Lemma eraseFlags_same (r r' : Requirement) :
  sameStatic r' r ->
  option_map (map eraseFlags) (children r')
  = option_map (map eraseFlags) (children r) ->
  eraseFlags r' = eraseFlags r.
Proof.
  intros (Hi & Hty & Hti & Hde & Hop & Hx & Hcv & Htv & Hvl & Hcd) Hch.
  rewrite (eraseFlags_eq r), (eraseFlags_eq r').
  rewrite Hi, Hty, Hti, Hde, Hop, Hx, Hcv, Htv, Hvl, Hcd, Hch. reflexivity.
Qed.

Lemma evaluateNumeric_children (r : Requirement) :
  children (evaluateNumeric r) = children r.
Proof.
  destruct r as [i ty ti de op xg cv tv ch fu di [limit|] cd];
    unfold evaluateNumeric; simpl; [destruct (limit <? _)|]; reflexivity.
Qed.

(** Evaluation writes nothing but the two flags, at any depth. *)
Lemma eraseFlags_evaluateRequirement (r : Requirement) :
  forall sibs, eraseFlags (evaluateRequirement r sibs) = eraseFlags r.
Proof.
  induction r as [r IH] using Requirement_ind. intro sibs.
  apply eraseFlags_same; [apply evaluateRequirement_static|].
  destruct (xorLockedBy r sibs) eqn:Hl.
  - rewrite (evaluateRequirement_locked _ _ Hl). reflexivity.
  - destruct (type r) eqn:Hty.
    + rewrite (evaluateRequirement_free _ _ Hl), Hty, afterXor_children.
      reflexivity.
    + rewrite (evaluateRequirement_free _ _ Hl), Hty,
        evaluateNumeric_children, afterXor_children. reflexivity.
    + destruct (childList r) as [|c cs] eqn:Hkids.
      * rewrite (evaluateRequirement_group_empty _ _ Hty Hl Hkids). simpl.
        rewrite afterXor_children. reflexivity.
      * assert (Hch : children r = Some (c :: cs)).
        { unfold childList in Hkids. destruct (children r); [|discriminate].
          now f_equal. }
        rewrite (evaluateRequirement_group_kids _ _ _ Hty Hl Hch)
          by discriminate.
        rewrite Hch. cbn [children set_isFulfilled set_children option_map].
        f_equal. apply mapInPlace_map. exact IH.
Qed.

Lemma allRelevantFulfilled_spec (rs : list Requirement) :
  allRelevantFulfilled rs = true <->
  forall r, In r rs -> mandatory r -> isFulfilled r = true.
Proof.
  unfold allRelevantFulfilled, mandatory. rewrite forallb_forall. split.
  - intros H r Hin Hm. apply H, filter_In. split; [exact Hin|].
    now rewrite Hm.
  - intros H r Hin. apply filter_In in Hin as [Hin Hm].
    apply H; [exact Hin|]. now apply negb_true_iff.
Qed.

Lemma evaluateTaskState_fields (t : Task) (now : Z) :
  let out := evaluateTaskState t now in
  taskId out = taskId t /\ taskTitle out = taskTitle t
  /\ taskDescription out = taskDescription t
  /\ timeLimit out = timeLimit t /\ elapsedTime out = elapsedTime t
  /\ createdAt out = createdAt t /\ isLocked out = isLocked t
  /\ taskCustomData out = taskCustomData t
  /\ updatedAt out = match status t with
                     | IDLE | LOCKED => updatedAt t
                     | _ => now
                     end.
Proof.
  destruct t as [ti tt td st rs tl el ca ua lk cd].
  unfold evaluateTaskState, cloneTask.
  cbn -[allRelevantFulfilled mapInPlace Z.leb].
  destruct (truthyNumber tl && (orDefault tl 0 <=? el)); destruct st;
    cbn -[allRelevantFulfilled mapInPlace Z.leb];
    try destruct (allRelevantFulfilled _);
    cbn; repeat split; reflexivity.
Qed.

(** X1. [evaluateTaskState] changes nothing of a task but its status, its
    [updatedAt] and the [isFulfilled] and [isDisabled] flags of its nodes: the
    other task fields are kept, and so is the requirement tree once the two
    flags are blanked at every depth (no node is added, dropped, moved or
    otherwise edited).  [updatedAt] is stamped exactly when the status is
    neither IDLE nor LOCKED. *)
Theorem evaluateTaskState_frame (t : Task) (now : Z) :
  let out := evaluateTaskState t now in
  taskId out = taskId t /\ taskTitle out = taskTitle t
  /\ taskDescription out = taskDescription t
  /\ timeLimit out = timeLimit t /\ elapsedTime out = elapsedTime t
  /\ createdAt out = createdAt t /\ isLocked out = isLocked t
  /\ taskCustomData out = taskCustomData t
  /\ map eraseFlags (requirements out) = map eraseFlags (requirements t)
  /\ updatedAt out = match status t with
                     | IDLE | LOCKED => updatedAt t
                     | _ => now
                     end.
Proof.
  cbv zeta.
  destruct (evaluateTaskState_fields t now)
    as (H1 & H2 & H3 & H4 & H5 & H6 & H7 & H8 & H9).
  repeat (split; [assumption|]). split; [|assumption].
  rewrite evaluateTaskState_requirements.
  assert (Hwalk : map eraseFlags
                    (mapInPlace evaluateRequirement [] (requirements t))
                  = map eraseFlags (requirements t)).
  { apply mapInPlace_map, Forall_forall. intros r _.
    apply eraseFlags_evaluateRequirement. }
  destruct (status t); solve [reflexivity | exact Hwalk].
Qed.

(** ** Status transitions of a pass *)

(** X2. A pass moves the status only out of RUNNING, and then only to FAILED
    or COMPLETED; every other status is returned as it was. *)
Theorem evaluateTaskState_status_moves (t : Task) (now : Z) :
  status (evaluateTaskState t now) = status t
  \/ (status t = RUNNING
      /\ (status (evaluateTaskState t now) = FAILED
          \/ status (evaluateTaskState t now) = COMPLETED)).
Proof.
  rewrite evaluateTaskState_status. cbv zeta.
  destruct (status t); try (left; reflexivity).
  destruct (truthyNumber (timeLimit t) && _); [right; auto|].
  destruct (allRelevantFulfilled _); [right; auto | left; reflexivity].
Qed.

(** X3. For a RUNNING task the pass returns FAILED exactly when the time
    limit is set, non-zero and reached, and COMPLETED exactly when it is not
    and every non-optional top-level requirement of the returned tree is
    fulfilled (in particular when there is none). *)
Theorem evaluateTaskState_running_outcome (t : Task) (now : Z) :
  status t = RUNNING ->
  let out := evaluateTaskState t now in
  (status out = FAILED <-> overdue t = true)
  /\ (status out = COMPLETED <->
      overdue t = false
      /\ forall r, In r (requirements out) -> mandatory r ->
                   isFulfilled r = true).
Proof.
  intro Hs. cbv zeta.
  rewrite evaluateTaskState_status, evaluateTaskState_requirements, Hs.
  cbv zeta. fold (overdue t). rewrite <- allRelevantFulfilled_spec.
  destruct (overdue t); [split; split; try reflexivity; try discriminate;
                          intros [H _]; discriminate H|].
  destruct (allRelevantFulfilled _); split; split; intro H;
    try discriminate H; try reflexivity; try (split; reflexivity);
    destruct H as [_ H]; discriminate H.
Qed.

Lemma evaluateTaskState_running_outcome_witness :
  (status (evaluateTaskState runningTask 1000) = FAILED
   <-> overdue runningTask = true)
  /\ (status (evaluateTaskState runningTask 1000) = COMPLETED <->
      overdue runningTask = false
      /\ forall r, In r (requirements (evaluateTaskState runningTask 1000)) ->
                   mandatory r -> isFulfilled r = true).
Proof.
  apply (evaluateTaskState_running_outcome runningTask 1000). reflexivity.
Defined.

(** ** Control actions *)

(** X4. A COMPLETED, FAILED, CANCELLED or LOCKED task is returned unchanged
    by [startTask], [pauseTask], [tickTask] and [updateRequirementValue]. *)
Theorem control_actions_ignore_settled (t : Task) (now deltaSeconds : Z)
  (reqId : string) (updates : RequirementUpdates) :
  settled (status t) = true ->
  startTask t now = t
  /\ pauseTask t = t
  /\ tickTask t deltaSeconds now = t
  /\ updateRequirementValue t reqId updates now = t.
Proof.
  intro H. unfold startTask, pauseTask, tickTask, updateRequirementValue.
  destruct (status t); try discriminate H; repeat split; reflexivity.
Qed.

Lemma control_actions_ignore_settled_witness :
  startTask completedTask 1000 = completedTask
  /\ pauseTask completedTask = completedTask
  /\ tickTask completedTask 1 1000 = completedTask
  /\ updateRequirementValue completedTask "warmup" (markFulfilled false) 1000
     = completedTask.
Proof.
  apply (control_actions_ignore_settled completedTask 1000 1 "warmup"
           (markFulfilled false)).
  reflexivity.
Defined.

(** X5. [pauseTask] never returns a RUNNING task and touches nothing but the
    status (no evaluation, no [updatedAt] stamp); pausing twice is pausing
    once, and a tick on its result adds no time. *)
Theorem pauseTask_freezes (t : Task) (now deltaSeconds : Z) :
  status (pauseTask t) <> RUNNING
  /\ set_status (pauseTask t) (status t) = t
  /\ pauseTask (pauseTask t) = pauseTask t
  /\ tickTask (pauseTask t) deltaSeconds now = pauseTask t.
Proof.
  unfold pauseTask, tickTask.
  destruct t as [ti tt td st rs tl el ca ua lk cd]; destruct st; simpl;
    repeat split; solve [reflexivity | discriminate].
Qed.

(** X6. Pausing a RUNNING task and starting it again gives what a pass over
    the task itself gives. *)
Theorem startTask_after_pauseTask (t : Task) (now : Z) :
  status t = RUNNING ->
  startTask (pauseTask t) now = evaluateTaskState t now.
Proof.
  intro Hs. unfold pauseTask. rewrite Hs. unfold startTask.
  destruct t as [ti tt td st rs tl el ca ua lk cd]; simpl in *. subst st.
  reflexivity.
Qed.

Lemma startTask_after_pauseTask_witness :
  startTask (pauseTask runningTask) 1000 = evaluateTaskState runningTask 1000.
Proof.
  apply (startTask_after_pauseTask runningTask 1000). reflexivity.
Defined.




(** Beyond 2^53 the sum is rounded: a tick of one second leaves an elapsed
    time of 2^53 as it is. *)
Example tickTask_beyond_exact_integers :
  elapsedTime (tickTask ancientTask 1 1000) = 2 ^ 53
  /\ elapsedTime (tickTask ancientTask 2 1000) = 2 ^ 53 + 2
  /\ elapsedTime (tickTask ancientTask 3 1000) = 2 ^ 53 + 4
  /\ numberAdd (2 ^ 53 + 2) 1 = 2 ^ 53 + 4
  /\ numberAdd (- 2 ^ 53) (- 1) = - 2 ^ 53.
Proof. repeat split; vm_compute; reflexivity. Qed.

Example numberAdd_overflow :
  numberAdd (2 ^ 1024 - 2 ^ 971) (2 ^ 970 - 1) = 2 ^ 1024 - 2 ^ 971
  /\ numberAdd (2 ^ 1024 - 2 ^ 971) (2 ^ 970) = infinity
  /\ numberAdd (2 ^ 1023) (2 ^ 1023) = infinity.
Proof. repeat split; vm_compute; reflexivity. Qed.

(** X8. Starting an IDLE or PAUSED task never leaves it IDLE or PAUSED: the
    result is FAILED when the time limit is already reached, and otherwise
    COMPLETED when every non-optional top-level requirement of the result is
    fulfilled, and RUNNING when one is not. *)
Theorem startTask_outcome (t : Task) (now : Z) :
  status t = IDLE \/ status t = PAUSED ->
  let out := startTask t now in
  (overdue t = true -> status out = FAILED)
  /\ (overdue t = false ->
      (forall r, In r (requirements out) -> mandatory r ->
                 isFulfilled r = true) ->
      status out = COMPLETED)
  /\ (overdue t = false ->
      (exists r, In r (requirements out) /\ mandatory r
                 /\ isFulfilled r = false) ->
      status out = RUNNING).
Proof.
  intro Hs. cbv zeta.
  assert (Hstart : startTask t now = evaluateTaskState (set_status t RUNNING) now).
  { unfold startTask. destruct Hs as [Hs|Hs]; rewrite Hs; reflexivity. }
  rewrite Hstart.
  rewrite evaluateTaskState_status, evaluateTaskState_requirements.
  cbn [status set_status timeLimit elapsedTime requirements]. cbv zeta.
  fold (overdue t).
  split; [|split].
  - intros ->. reflexivity.
  - intros -> Hall. apply allRelevantFulfilled_spec in Hall.
    rewrite Hall. reflexivity.
  - intros -> (r & Hin & Hm & Hf).
    destruct (allRelevantFulfilled _) eqn:Hall; [|reflexivity].
    rewrite allRelevantFulfilled_spec in Hall.
    rewrite (Hall r Hin Hm) in Hf. discriminate Hf.
Qed.

Lemma startTask_outcome_witness :
  status (startTask overdueIdle 1000) = FAILED.
Proof.
  apply (proj1 (startTask_outcome overdueIdle 1000 (or_introl eq_refl))).
  reflexivity.
Defined.

(** ** Reset, again *)

Lemma recursiveResetNode_idempotent (r : Requirement) :
  recursiveResetNode (recursiveResetNode r) = recursiveResetNode r.
Proof.
  induction r as [r IH] using Requirement_ind.
  destruct r as [i ty ti de op xg cv tv [cs|] fu di vl cd];
    unfold childList in IH; simpl in *; [|reflexivity].
  do 2 f_equal. rewrite map_map. apply map_ext_in. intros c Hc.
  exact (proj1 (Forall_forall _ _) IH c Hc).
Qed.

Lemma recursiveResetNode_eraseFlags (r : Requirement) :
  recursiveResetNode (eraseFlags r) = recursiveResetNode r.
Proof.
  induction r as [r IH] using Requirement_ind.
  destruct r as [i ty ti de op xg cv tv [cs|] fu di vl cd];
    unfold childList in IH; simpl in *; [|reflexivity].
  do 2 f_equal. rewrite map_map. apply map_ext_in. intros c Hc.
  exact (proj1 (Forall_forall _ _) IH c Hc).
Qed.

(** X9. Resetting a reset task changes nothing but the stamp, a pass over a
    reset task changes nothing at all, and the reset tree does not depend on
    the flags the nodes carried. *)
Theorem resetTask_stable (t : Task) (now1 now2 : Z) :
  resetTask (resetTask t now1) now2 = resetTask t now2
  /\ evaluateTaskState (resetTask t now1) now2 = resetTask t now1
  /\ recursiveReset (map eraseFlags (requirements t))
     = recursiveReset (requirements t).
Proof.
  split; [|split].
  - unfold resetTask. cbn [taskId taskTitle taskDescription requirements
      timeLimit createdAt isLocked taskCustomData]. f_equal.
    unfold recursiveReset. rewrite map_map. apply map_ext.
    apply recursiveResetNode_idempotent.
  - unfold evaluateTaskState, cloneTask, resetTask. simpl.
    destruct (truthyNumber (timeLimit t) && _); reflexivity.
  - unfold recursiveReset. rewrite map_map. apply map_ext.
    apply recursiveResetNode_eraseFlags.
Qed.

(** ** The evaluation of one node *)

(** X10. A node that carries a non-empty [xorGroup] and has a fulfilled
    sibling with another identifier and the same [xorGroup] comes out
    disabled and unfulfilled, with every other field, its children included,
    as it went in. *)
Theorem evaluateRequirement_xor_lock (r s : Requirement)
  (sibs : list Requirement) :
  truthyString (xorGroup r) = true ->
  In s sibs -> id s <> id r -> xorGroup s = xorGroup r ->
  isFulfilled s = true ->
  evaluateRequirement r sibs
  = set_isFulfilled (set_isDisabled r (Some true)) false.
Proof.
  intros Hlab Hin Hid Hx Hf.
  apply evaluateRequirement_locked. unfold xorLockedBy. rewrite Hlab.
  assert (Hw : isXorWinnerOver r s = true).
  { unfold isXorWinnerOver. rewrite Hf, Hx.
    destruct (String.eqb_spec (id s) (id r)) as [Heq|_]; [contradiction|].
    destruct (xorGroup r) as [g|]; [|discriminate Hlab].
    simpl. rewrite String.eqb_refl. reflexivity. }
  pose proof (xorWinner_found r s sibs Hin Hw) as Hsome.
  destruct (xorWinner r sibs); [reflexivity | contradiction].
Qed.

Lemma evaluateRequirement_xor_lock_witness :
  evaluateRequirement (booleanReq "swim" (Some "cardio") true None)
    [ booleanReq "run" (Some "cardio") true None;
      booleanReq "swim" (Some "cardio") true None ]
  = booleanReq "swim" (Some "cardio") false (Some true).
Proof.
  apply (evaluateRequirement_xor_lock
           (booleanReq "swim" (Some "cardio") true None)
           (booleanReq "run" (Some "cardio") true None)).
  - reflexivity.
  - left; reflexivity.
  - discriminate.
  - reflexivity.
  - reflexivity.
Defined.

(** X11. The sibling array is consulted for the XOR test only: two arrays
    that agree on whether the node is locked give the same result, so a node
    without XOR label evaluates the same whatever its siblings are. *)
Theorem evaluateRequirement_siblings_only_lock (r : Requirement)
  (sibs1 sibs2 : list Requirement) :
  (xorLockedBy r sibs1 = xorLockedBy r sibs2 ->
   evaluateRequirement r sibs1 = evaluateRequirement r sibs2)
  /\ (truthyString (xorGroup r) = false ->
      evaluateRequirement r sibs1 = evaluateRequirement r sibs2).
Proof.
  assert (Hmain : xorLockedBy r sibs1 = xorLockedBy r sibs2 ->
                  evaluateRequirement r sibs1 = evaluateRequirement r sibs2).
  { intro H. destruct (xorLockedBy r sibs2) eqn:H2.
    - now rewrite (evaluateRequirement_locked _ _ H),
        (evaluateRequirement_locked _ _ H2).
    - now rewrite (evaluateRequirement_free _ _ H),
        (evaluateRequirement_free _ _ H2). }
  split; [exact Hmain|].
  intro Hlab. apply Hmain. unfold xorLockedBy. rewrite Hlab. reflexivity.
Qed.

Lemma evaluateRequirement_siblings_only_lock_witness :
  evaluateRequirement breachedCounter []
  = evaluateRequirement breachedCounter [doneCounter; lockedSwim].
Proof.
  apply (proj2 (evaluateRequirement_siblings_only_lock breachedCounter []
                  [doneCounter; lockedSwim])).
  reflexivity.
Defined.

(** X12. The evaluator descends only below a GROUP node that the XOR check
    does not lock: a BOOLEAN node, a NUMERIC node and a locked node keep the
    [children] they carry, untouched. *)
Theorem evaluateRequirement_children_untouched (r : Requirement)
  (sibs : list Requirement) :
  type r <> GROUP \/ xorLockedBy r sibs = true ->
  children (evaluateRequirement r sibs) = children r.
Proof.
  intro H. destruct (xorLockedBy r sibs) eqn:Hl.
  - rewrite (evaluateRequirement_locked _ _ Hl). reflexivity.
  - destruct H as [Hty|H]; [|discriminate H].
    rewrite (evaluateRequirement_free _ _ Hl).
    destruct (type r); [| |contradiction].
    + apply afterXor_children.
    + rewrite evaluateNumeric_children. apply afterXor_children.
Qed.

Lemma evaluateRequirement_children_untouched_witness :
  children
    (evaluateRequirement
       (mkRequirement "odd" BOOLEAN "odd" None None None None None
          (Some [recoveredCounter]) true None None None) [])
  = Some [recoveredCounter].
Proof.
  apply (evaluateRequirement_children_untouched
           (mkRequirement "odd" BOOLEAN "odd" None None None None None
              (Some [recoveredCounter]) true None None None) []).
  left; discriminate.
Defined.

(** X13. The evaluator never fulfils a BOOLEAN node: it comes out fulfilled
    exactly when it went in fulfilled and the XOR check did not lock it. *)
Theorem evaluateRequirement_boolean (r : Requirement)
  (sibs : list Requirement) :
  type r = BOOLEAN ->
  isFulfilled (evaluateRequirement r sibs)
  = isFulfilled r && negb (xorLockedBy r sibs).
Proof.
  intro Hty. destruct (xorLockedBy r sibs) eqn:Hl.
  - rewrite (evaluateRequirement_locked _ _ Hl), andb_false_r. reflexivity.
  - rewrite (evaluateRequirement_free _ _ Hl), Hty, andb_true_r.
    unfold afterXor. destruct (truthyString (xorGroup r)); reflexivity.
Qed.

Lemma evaluateRequirement_boolean_witness :
  isFulfilled (evaluateRequirement lockedSwim [lockedSwim])
  = isFulfilled lockedSwim && negb (xorLockedBy lockedSwim [lockedSwim]).
Proof.
  apply (evaluateRequirement_boolean lockedSwim [lockedSwim]). reflexivity.
Defined.

(** ** Mandatory XOR siblings *)

Lemma mapInPlace_nth_image (f : Requirement -> list Requirement -> Requirement)
  (todo done : list Requirement) (i : nat) (r : Requirement) :
  nth_error todo i = Some r ->
  exists sibs, nth_error (mapInPlace f done todo) i = Some (f r sibs).
Proof.
  intro Hr.
  destruct (nth_error (mapInPlace f done todo) i) as [r'|] eqn:Hr'.
  - destruct (mapInPlace_nth _ _ _ _ _ Hr') as (r0 & Hr0 & ->).
    rewrite Hr in Hr0. injection Hr0 as <-. eexists. reflexivity.
  - apply nth_error_None in Hr'. rewrite mapInPlace_length in Hr'.
    assert (Hlt : (i < List.length todo)%nat)
      by (apply nth_error_Some; rewrite Hr; discriminate).
    lia.
Qed.

(** Of two mandatory siblings with different identifiers and the same
    non-empty label, one leaves the pass mandatory and unfulfilled. *)
Lemma mapInPlace_xor_pair_loser (rs : list Requirement) (i j : nat)
  (a b : Requirement) :
  nth_error rs i = Some a -> nth_error rs j = Some b -> i <> j ->
  id a <> id b -> truthyString (xorGroup a) = true ->
  xorGroup a = xorGroup b -> mandatory a -> mandatory b ->
  exists c, In c (mapInPlace evaluateRequirement [] rs)
            /\ mandatory c /\ isFulfilled c = false.
Proof.
  intros Ha Hb Hij Hid Hlab Hx Hma Hmb.
  destruct (mapInPlace_nth_image evaluateRequirement rs [] i a Ha) as [sa Ha'].
  destruct (mapInPlace_nth_image evaluateRequirement rs [] j b Hb) as [sb Hb'].
  destruct (evaluateRequirement_static a sa)
    as (Hia & _ & _ & _ & Hoa & Hxa & _).
  destruct (evaluateRequirement_static b sb)
    as (Hib & _ & _ & _ & Hob & Hxb & _).
  destruct (isFulfilled (evaluateRequirement a sa)) eqn:Hfa.
  - exists (evaluateRequirement b sb). split; [|split].
    + exact (nth_error_In _ _ Hb').
    + unfold mandatory in *. now rewrite Hob.
    + destruct (isFulfilled (evaluateRequirement b sb)) eqn:Hfb;
        [|reflexivity].
      exfalso.
      apply (mapInPlace_exclusive rs i j _ _ Hij Ha' Hb');
        [congruence | now rewrite Hxa | congruence | split; assumption].
  - exists (evaluateRequirement a sa). split; [|split].
    + exact (nth_error_In _ _ Ha').
    + unfold mandatory in *. now rewrite Hoa.
    + exact Hfa.
Qed.

(** X14. A task with two non-optional top-level requirements that have
    different identifiers and share a non-empty [xorGroup] is never moved to
    COMPLETED by a pass: at most one of the two can come out fulfilled, and
    the other blocks the completion test. *)
Theorem evaluateTaskState_xor_pair_never_completes (t : Task) (now : Z)
  (i j : nat) (a b : Requirement) :
  nth_error (requirements t) i = Some a ->
  nth_error (requirements t) j = Some b -> i <> j ->
  id a <> id b -> truthyString (xorGroup a) = true ->
  xorGroup a = xorGroup b -> mandatory a -> mandatory b ->
  status t <> COMPLETED ->
  status (evaluateTaskState t now) <> COMPLETED.
Proof.
  intros Ha Hb Hij Hid Hlab Hx Hma Hmb Hs.
  destruct (mapInPlace_xor_pair_loser _ _ _ _ _ Ha Hb Hij Hid Hlab Hx Hma Hmb)
    as (c & Hin & Hm & Hf).
  rewrite evaluateTaskState_status. cbv zeta.
  destruct (status t); try exact Hs; try discriminate.
  destruct (truthyNumber (timeLimit t) && _); [discriminate|].
  destruct (allRelevantFulfilled _) eqn:Hall; [|discriminate].
  rewrite allRelevantFulfilled_spec in Hall.
  rewrite (Hall c Hin Hm) in Hf. discriminate Hf.
Qed.

Lemma evaluateTaskState_xor_pair_never_completes_witness :
  status (evaluateTaskState
            (updateRequirementValue runOrSwim "run" (markFulfilled true) 1)
            2) <> COMPLETED.
Proof.
  apply (evaluateTaskState_xor_pair_never_completes
           (updateRequirementValue runOrSwim "run" (markFulfilled true) 1) 2
           0%nat 1%nat
           (booleanReq "run" (Some "cardio") true (Some false))
           (booleanReq "swim" (Some "cardio") false (Some true)));
    solve [reflexivity | discriminate].
Defined.

(** X15. Likewise a GROUP node that the pass evaluates is never fulfilled
    when two of its non-optional children have different identifiers and
    share a non-empty [xorGroup]. *)
Theorem evaluateRequirement_group_xor_pair_unfulfilled (r : Requirement)
  (sibs kids : list Requirement) (i j : nat) (a b : Requirement) :
  type r = GROUP -> xorLockedBy r sibs = false ->
  children r = Some kids ->
  nth_error kids i = Some a -> nth_error kids j = Some b -> i <> j ->
  id a <> id b -> truthyString (xorGroup a) = true ->
  xorGroup a = xorGroup b -> mandatory a -> mandatory b ->
  isFulfilled (evaluateRequirement r sibs) = false.
Proof.
  intros Hty Hfree Hch Ha Hb Hij Hid Hlab Hx Hma Hmb.
  destruct (mapInPlace_xor_pair_loser _ _ _ _ _ Ha Hb Hij Hid Hlab Hx Hma Hmb)
    as (c & Hin & Hm & Hf).
  assert (Hne : kids <> []) by (intros ->; destruct i; discriminate Ha).
  rewrite (evaluateRequirement_group_kids _ _ _ Hty Hfree Hch Hne).
  cbn [isFulfilled set_isFulfilled].
  destruct (groupFulfilled _) eqn:Hg; [|reflexivity].
  rewrite groupFulfilled_spec in Hg.
  rewrite (Hg c Hin Hm) in Hf. discriminate Hf.
Qed.

Lemma evaluateRequirement_group_xor_pair_unfulfilled_witness :
  isFulfilled (evaluateRequirement mixedGroup []) = false.
Proof.
  apply (evaluateRequirement_group_xor_pair_unfulfilled mixedGroup []
           (childList mixedGroup) 0%nat 1%nat
           (numericReq "pushups" (Some "arms") (Some 20) (Some 20) None false
              None)
           (numericReq "dips" (Some "arms") (Some 30) (Some 30) None false
              None));
    solve [reflexivity | discriminate].
Defined.

Lemma evaluateTaskState_idempotent_without_xor_witness :
  sameExceptUpdatedAt
    (evaluateTaskState (evaluateTaskState plainTask 1000) 2000)
    (evaluateTaskState plainTask 1000).
Proof.
  apply (evaluateTaskState_idempotent_without_xor plainTask 1000 2000).
  reflexivity.
Defined.

(** ** Updates that change nothing, and updates that land *)

Lemma set_children_same (r : Requirement) (cs : list Requirement) :
  children r = Some cs -> set_children r (Some cs) = r.
Proof. destruct r; simpl; intros ->; reflexivity. Qed.

Lemma set_requirements_same (t : Task) :
  set_requirements t (requirements t) = t.
Proof. destruct t; reflexivity. Qed.

(** A subtree without the searched identifier is handed back as it is. *)
Lemma recursiveUpdateNode_missing (reqId : string)
  (updates : RequirementUpdates) (r : Requirement) :
  Forall (fun n => id n <> reqId) (nodesOf r) ->
  recursiveUpdateNode reqId updates r = r.
Proof.
  induction r as [r IH] using Requirement_ind. intro Hall.
  rewrite nodesOf_eq in Hall. apply Forall_cons_iff in Hall as [Hid Hbelow].
  rewrite recursiveUpdateNode_eq.
  destruct (String.eqb_spec (id r) reqId) as [Heq|_]; [contradiction|].
  unfold childList in IH, Hbelow.
  destruct (children r) as [cs|] eqn:Hch; [|reflexivity].
  assert (Hcs : recursiveUpdate reqId updates cs = cs).
  { unfold recursiveUpdate. rewrite <- (map_id cs) at 2.
    apply map_ext_in. intros c Hc.
    apply (proj1 (Forall_forall _ _) IH c Hc).
    apply Forall_flat_map_nodes in Hbelow.
    exact (proj1 (Forall_forall _ _) Hbelow c Hc). }
  rewrite Hcs. apply set_children_same, Hch.
Qed.

Lemma recursiveUpdate_missing (reqId : string) (updates : RequirementUpdates)
  (rs : list Requirement) :
  Forall (fun n => id n <> reqId) (allNodes rs) ->
  recursiveUpdate reqId updates rs = rs.
Proof.
  intro Hall. unfold recursiveUpdate. rewrite <- (map_id rs) at 2.
  apply map_ext_in. intros c Hc. apply recursiveUpdateNode_missing.
  apply Forall_flat_map_nodes in Hall.
  exact (proj1 (Forall_forall _ _) Hall c Hc).
Qed.

Lemma updateRequirementValue_open (t : Task) (reqId : string)
  (updates : RequirementUpdates) (now : Z) :
  status t = RUNNING \/ status t = PAUSED ->
  updateRequirementValue t reqId updates now
  = evaluateTaskState
      (set_requirements t (recursiveUpdate reqId updates (requirements t)))
      now.
Proof.
  intro Hs. unfold updateRequirementValue, cloneTask.
  destruct Hs as [Hs|Hs]; rewrite Hs; reflexivity.
Qed.

(** X17. In a RUNNING or PAUSED task an update aimed at an identifier that no
    node of the tree carries edits nothing: the result is that of a plain
    pass over the task. *)
Theorem updateRequirementValue_missing_id (t : Task) (reqId : string)
  (updates : RequirementUpdates) (now : Z) :
  status t = RUNNING \/ status t = PAUSED ->
  (forall n, In n (allNodes (requirements t)) -> id n <> reqId) ->
  updateRequirementValue t reqId updates now = evaluateTaskState t now.
Proof.
  intros Hs Hall. rewrite (updateRequirementValue_open _ _ _ _ Hs).
  rewrite recursiveUpdate_missing by (apply Forall_forall; exact Hall).
  now rewrite set_requirements_same.
Qed.

Lemma updateRequirementValue_missing_id_witness :
  updateRequirementValue pausedTask "bike" toggleOn 1000
  = evaluateTaskState pausedTask 1000.
Proof.
  apply (updateRequirementValue_missing_id pausedTask "bike" toggleOn 1000).
  - right; reflexivity.
  - intros n Hin. simpl in Hin.
    repeat (destruct Hin as [<-|Hin]; [discriminate|]). destruct Hin.
Defined.

Lemma recursiveUpdate_applies (reqId : string)
  (updates : RequirementUpdates) (path : list nat) :
  forall (rs : list Requirement) (r : Requirement),
    nodeAt path rs = Some r ->
    id r = reqId -> truthyBool (isDisabled r) = false ->
    Forall (fun a => id a <> reqId) (ancestorsAt path rs) ->
    nodeAt path (recursiveUpdate reqId updates rs)
    = Some (applyUpdates r updates).
Proof.
  induction path as [|i rest IH]; intros rs r Hat Hid Hdis Hanc;
    [discriminate Hat|].
  simpl in *. unfold recursiveUpdate at 1. rewrite nth_error_map.
  destruct (nth_error rs i) as [a|]; [simpl|discriminate Hat].
  destruct rest as [|j rest].
  - injection Hat as ->. f_equal.
    rewrite recursiveUpdateNode_eq, Hid, String.eqb_refl, Hdis. reflexivity.
  - apply Forall_cons_iff in Hanc as [Ha Hrest].
    rewrite (recursiveUpdateNode_descend _ updates a Ha).
    apply IH; assumption.
Qed.

(** X18. In a RUNNING or PAUSED task an update aimed at a node that is not
    disabled (and that the search reaches: no ancestor carries the identifier)
    hands the evaluator a tree that holds, at that position, the node with the
    given properties overwritten, and that holds unchanged every top-level
    requirement whose subtree does not contain the identifier. *)
Theorem updateRequirementValue_applies (t : Task) (reqId : string)
  (updates : RequirementUpdates) (now : Z) (path : list nat)
  (r : Requirement) :
  status t = RUNNING \/ status t = PAUSED ->
  nodeAt path (requirements t) = Some r ->
  id r = reqId ->
  truthyBool (isDisabled r) = false ->
  Forall (fun a => id a <> reqId) (ancestorsAt path (requirements t)) ->
  exists edited,
    updateRequirementValue t reqId updates now = evaluateTaskState edited now
    /\ nodeAt path (requirements edited) = Some (applyUpdates r updates)
    /\ forall k r0,
         nth_error (requirements t) k = Some r0 ->
         (forall n, In n (nodesOf r0) -> id n <> reqId) ->
         nth_error (requirements edited) k = Some r0.
Proof.
  intros Hs Hat Hid Hdis Hanc.
  exists (set_requirements t (recursiveUpdate reqId updates (requirements t))).
  split; [apply updateRequirementValue_open, Hs|]. split.
  - simpl. apply recursiveUpdate_applies; assumption.
  - intros k r0 Hk Hno. simpl. unfold recursiveUpdate.
    rewrite nth_error_map, Hk. simpl. f_equal.
    apply recursiveUpdateNode_missing, Forall_forall, Hno.
Qed.

Lemma updateRequirementValue_applies_witness :
  exists edited,
    updateRequirementValue runOrSwim "swim" (markFulfilled true) 1000
    = evaluateTaskState edited 1000
    /\ nodeAt [1%nat] (requirements edited)
       = Some (booleanReq "swim" (Some "cardio") true None)
    /\ forall k r0,
         nth_error (requirements runOrSwim) k = Some r0 ->
         (forall n, In n (nodesOf r0) -> id n <> "swim") ->
         nth_error (requirements edited) k = Some r0.
Proof.
  apply (updateRequirementValue_applies runOrSwim "swim" (markFulfilled true)
           1000 [1%nat] (booleanReq "swim" (Some "cardio") false None)).
  - left; reflexivity.
  - reflexivity.
  - reflexivity.
  - reflexivity.
  - simpl. constructor.
Defined.

Lemma applyUpdates_noUpdates (r : Requirement) : applyUpdates r noUpdates = r.
Proof. destruct r; reflexivity. Qed.

Lemma recursiveUpdateNode_noUpdates (reqId : string) (r : Requirement) :
  recursiveUpdateNode reqId noUpdates r = r.
Proof.
  induction r as [r IH] using Requirement_ind.
  rewrite recursiveUpdateNode_eq, applyUpdates_noUpdates.
  destruct (String.eqb (id r) reqId);
    [destruct (truthyBool (isDisabled r)); reflexivity|].
  unfold childList in IH.
  destruct (children r) as [cs|] eqn:Hch; [|reflexivity].
  assert (Hcs : recursiveUpdate reqId noUpdates cs = cs).
  { unfold recursiveUpdate. rewrite <- (map_id cs) at 2.
    apply map_ext_in. intros c Hc.
    exact (proj1 (Forall_forall _ _) IH c Hc). }
  rewrite Hcs. apply set_children_same, Hch.
Qed.

(** X19. In a RUNNING or PAUSED task an update with an empty payload edits
    nothing, whatever node it is aimed at: the result is that of a plain
    pass over the task. *)
Theorem updateRequirementValue_empty_payload (t : Task) (reqId : string)
  (now : Z) :
  status t = RUNNING \/ status t = PAUSED ->
  updateRequirementValue t reqId noUpdates now = evaluateTaskState t now.
Proof.
  intro Hs. rewrite (updateRequirementValue_open _ _ _ _ Hs).
  assert (Hsame : recursiveUpdate reqId noUpdates (requirements t)
                  = requirements t).
  { unfold recursiveUpdate. rewrite <- (map_id (requirements t)) at 2.
    apply map_ext. apply recursiveUpdateNode_noUpdates. }
  now rewrite Hsame, set_requirements_same.
Qed.

Lemma updateRequirementValue_empty_payload_witness :
  updateRequirementValue runOrSwim "run" noUpdates 1000
  = evaluateTaskState runOrSwim 1000.
Proof.
  apply (updateRequirementValue_empty_payload runOrSwim "run" 1000).
  left; reflexivity.
Defined.

(** ** What the control actions leave alone *)

(** X20. No engine action changes the identity of a task or its budget:
    [startTask], [pauseTask], [resetTask], [tickTask] and
    [updateRequirementValue] keep [id], [title], [description], [timeLimit],
    [createdAt], [isLocked] and [customData]. *)
Theorem control_actions_keep_identity (t : Task) (now deltaSeconds : Z)
  (reqId : string) (updates : RequirementUpdates) :
  let kept (t' : Task) :=
    taskId t' = taskId t /\ taskTitle t' = taskTitle t
    /\ taskDescription t' = taskDescription t /\ timeLimit t' = timeLimit t
    /\ createdAt t' = createdAt t /\ isLocked t' = isLocked t
    /\ taskCustomData t' = taskCustomData t in
  kept (startTask t now) /\ kept (pauseTask t) /\ kept (resetTask t now)
  /\ kept (tickTask t deltaSeconds now)
  /\ kept (updateRequirementValue t reqId updates now).
Proof.
  cbv zeta.
  assert (Hev : forall t0,
             taskId t0 = taskId t -> taskTitle t0 = taskTitle t ->
             taskDescription t0 = taskDescription t ->
             timeLimit t0 = timeLimit t -> createdAt t0 = createdAt t ->
             isLocked t0 = isLocked t ->
             taskCustomData t0 = taskCustomData t ->
             let t' := evaluateTaskState t0 now in
             taskId t' = taskId t /\ taskTitle t' = taskTitle t
             /\ taskDescription t' = taskDescription t
             /\ timeLimit t' = timeLimit t /\ createdAt t' = createdAt t
             /\ isLocked t' = isLocked t
             /\ taskCustomData t' = taskCustomData t).
  { intros t0 E1 E2 E3 E4 E5 E6 E7. cbv zeta.
    destruct (evaluateTaskState_fields t0 now)
      as (H1 & H2 & H3 & H4 & _ & H6 & H7 & H8 & _).
    repeat split; congruence. }
  assert (Hid : taskId t = taskId t /\ taskTitle t = taskTitle t
                /\ taskDescription t = taskDescription t
                /\ timeLimit t = timeLimit t /\ createdAt t = createdAt t
                /\ isLocked t = isLocked t
                /\ taskCustomData t = taskCustomData t)
    by (repeat split; reflexivity).
  split; [|split; [|split; [|split]]].
  - unfold startTask. destruct (_ || _); [|exact Hid].
    apply Hev; reflexivity.
  - unfold pauseTask. destruct (TaskStatus_eqb _ _); [|exact Hid].
    repeat split; reflexivity.
  - repeat split; reflexivity.
  - unfold tickTask. destruct (negb _); [exact Hid|].
    apply Hev; reflexivity.
  - unfold updateRequirementValue, cloneTask. destruct (_ && _); [exact Hid|].
    apply Hev; reflexivity.
Qed.

(** ** The task list of the application shell *)

Lemma activeTask_cons (i : string) (t : Task) (ts : list Task) :
  activeTask (t :: ts) (Some i)
  = if String.eqb (taskId t) i then Some t else activeTask ts (Some i).
Proof. reflexivity. Qed.

(** X21. [handleTaskUpdate] keeps the identifiers of the list, position by
    position; afterwards a lookup of the updated task's identifier yields the
    updated task if the list held that identifier and nothing otherwise, and
    a lookup of any other identifier yields what it yielded before. *)
Theorem handleTaskUpdate_lookup (updatedTask : Task) (prev : list Task) :
  map taskId (handleTaskUpdate updatedTask prev) = map taskId prev
  /\ activeTask (handleTaskUpdate updatedTask prev)
       (Some (taskId updatedTask))
     = match activeTask prev (Some (taskId updatedTask)) with
       | Some _ => Some updatedTask
       | None => None
       end
  /\ forall j,
       j <> taskId updatedTask ->
       activeTask (handleTaskUpdate updatedTask prev) (Some j)
       = activeTask prev (Some j).
Proof.
  split; [|split].
  - unfold handleTaskUpdate. rewrite map_map. apply map_ext. intro t.
    destruct (String.eqb_spec (taskId t) (taskId updatedTask)) as [->|_];
      reflexivity.
  - induction prev as [|t ts IH]; [reflexivity|].
    unfold handleTaskUpdate in *. simpl map. rewrite !activeTask_cons.
    destruct (String.eqb_spec (taskId t) (taskId updatedTask)) as [Heq|Hne].
    + rewrite String.eqb_refl. reflexivity.
    + destruct (String.eqb_spec (taskId t) (taskId updatedTask));
        [contradiction | exact IH].
  - intros j Hj. induction prev as [|t ts IH]; [reflexivity|].
    unfold handleTaskUpdate in *. simpl map. rewrite !activeTask_cons.
    destruct (String.eqb_spec (taskId t) (taskId updatedTask)) as [Heq|Hne].
    + destruct (String.eqb_spec (taskId updatedTask) j) as [E|_];
        [symmetry in E; contradiction|].
      destruct (String.eqb_spec (taskId t) j) as [E|_];
        [rewrite Heq in E; symmetry in E; contradiction | exact IH].
    + destruct (String.eqb (taskId t) j); [reflexivity | exact IH].
Qed.

(** X22. After [onDelete] a lookup of the deleted identifier finds nothing
    (every task that carried it is gone), a lookup of any other identifier
    yields what it yielded before, and deleting again changes nothing. *)
Theorem onDelete_lookup (i : string) (prev : list Task) :
  activeTask (onDelete i prev) (Some i) = None
  /\ (forall j, j <> i ->
        activeTask (onDelete i prev) (Some j) = activeTask prev (Some j))
  /\ onDelete i (onDelete i prev) = onDelete i prev.
Proof.
  split; [|split].
  - induction prev as [|t ts IH]; [reflexivity|].
    unfold onDelete in *. simpl filter.
    destruct (String.eqb (taskId t) i) eqn:E; simpl negb; cbv iota;
      [exact IH|].
    rewrite activeTask_cons, E. exact IH.
  - intros j Hj. induction prev as [|t ts IH]; [reflexivity|].
    unfold onDelete in *. simpl filter. rewrite activeTask_cons.
    destruct (String.eqb_spec (taskId t) i) as [Heq|Hne]; simpl negb;
      cbv iota.
    + destruct (String.eqb_spec (taskId t) j) as [E|_];
        [rewrite Heq in E; symmetry in E; contradiction | exact IH].
    + rewrite activeTask_cons.
      destruct (String.eqb (taskId t) j); [reflexivity | exact IH].
  - unfold onDelete. induction prev as [|t ts IH]; [reflexivity|].
    simpl. destruct (String.eqb (taskId t) i) eqn:E; simpl;
      [exact IH | rewrite E; simpl; now rewrite IH].
Qed.

(** X23. [onAdd] appends the evaluated task: the list grows by one, and a
    lookup of the new task's identifier yields the evaluated task unless an
    earlier task of the list already carries that identifier, which then
    shadows it. *)
Theorem onAdd_lookup (task : Task) (now : Z) (prev : list Task) :
  List.length (onAdd task now prev) = S (List.length prev)
  /\ activeTask (onAdd task now prev) (Some (taskId task))
     = match activeTask prev (Some (taskId task)) with
       | Some earlier => Some earlier
       | None => Some (evaluateTaskState task now)
       end.
Proof.
  unfold onAdd. split.
  - rewrite length_app. simpl. lia.
  - induction prev as [|t ts IH].
    + simpl. destruct (evaluateTaskState_fields task now) as (Hid & _).
      cbv zeta in Hid. rewrite Hid, String.eqb_refl. reflexivity.
    + simpl app. rewrite !activeTask_cons.
      destruct (String.eqb (taskId t) (taskId task)); [reflexivity|exact IH].
Qed.

(** ** The tie-break of an XOR group *)

Lemma strictEqString_eq (a b : option string) :
  strictEqString a b = true -> a = b.
Proof.
  destruct a as [x|], b as [y|]; simpl; intro H;
    try discriminate H; [|reflexivity].
  apply String.eqb_eq in H. now subst.
Qed.

Lemma xorWinner_none (req : Requirement) (sibs : list Requirement) :
  (forall s, In s sibs -> isXorWinnerOver req s = false) ->
  xorWinner req sibs = None.
Proof.
  unfold xorWinner. induction sibs as [|s rest IH]; intro H; [reflexivity|].
  simpl. rewrite (H s (or_introl eq_refl)). apply IH.
  intros x Hx. apply H. now right.
Qed.

Lemma xorLockedBy_true (r s : Requirement) (sibs : list Requirement) :
  truthyString (xorGroup r) = true ->
  In s sibs -> id s <> id r -> xorGroup s = xorGroup r ->
  isFulfilled s = true ->
  xorLockedBy r sibs = true.
Proof.
  intros Hlab Hin Hid Hx Hf. unfold xorLockedBy. rewrite Hlab.
  assert (Hw : isXorWinnerOver r s = true).
  { unfold isXorWinnerOver. rewrite Hf, Hx.
    destruct (String.eqb_spec (id s) (id r)) as [Heq|_]; [contradiction|].
    destruct (xorGroup r) as [g|]; [|discriminate Hlab].
    simpl. rewrite String.eqb_refl. reflexivity. }
  pose proof (xorWinner_found r s sibs Hin Hw) as Hsome.
  destruct (xorWinner r sibs); [reflexivity | contradiction].
Qed.

Section LastFulfilledWins.
Variable rs : list Requirement.
Variable L : nat.
Variable w : Requirement.
Hypothesis Hw : nth_error rs L = Some w.
Hypothesis Hbool : type w = BOOLEAN.
Hypothesis Hlabel : truthyString (xorGroup w) = true.
Hypothesis Hdone : isFulfilled w = true.
Hypothesis Hlast :
  forall m r, (L < m)%nat -> nth_error rs m = Some r ->
              xorGroup r = xorGroup w -> isFulfilled r = false.

(** The members of the group before the last fulfilled one are locked by
    it. *)
Lemma earlier_members_locked (k : nat) (r' : Requirement) :
  (k < L)%nat ->
  nth_error (mapInPlace evaluateRequirement [] rs) k = Some r' ->
  xorGroup r' = xorGroup w -> id r' <> id w ->
  isDisabled r' = Some true /\ isFulfilled r' = false.
Proof.
  intros Hk Hr' Hx Hid.
  destruct (mapInPlace_nth _ _ _ _ _ Hr') as (r & _ & ->). simpl in *.
  set (sibs := firstn k (mapInPlace evaluateRequirement [] rs) ++ skipn k rs)
    in *.
  destruct (evaluateRequirement_static r sibs) as (Hi & _ & _ & _ & _ & Hxr & _).
  assert (Hin : In w sibs).
  { apply in_or_app. right. apply nth_error_In with (n := (L - k)%nat).
    rewrite nth_error_skipn. replace (k + (L - k))%nat with L by lia.
    exact Hw. }
  rewrite (evaluateRequirement_locked r sibs).
  - split; reflexivity.
  - apply (xorLockedBy_true r w sibs); congruence.
Qed.

(** No sibling wins over the last fulfilled member when it is visited. *)
Lemma last_member_free :
  xorLockedBy w
    (firstn L (mapInPlace evaluateRequirement [] rs) ++ skipn L rs) = false.
Proof.
  unfold xorLockedBy. rewrite xorWinner_none; [apply andb_false_r|].
  intros s Hin. unfold isXorWinnerOver.
  destruct (String.eqb_spec (id s) (id w)) as [Heq|Hne]; [reflexivity|].
  destruct (strictEqString (xorGroup s) (xorGroup w)) eqn:Hx; [|reflexivity].
  apply strictEqString_eq in Hx. simpl.
  apply in_app_or in Hin as [Hin|Hin].
  - apply In_nth_error in Hin as [m Hm]. rewrite nth_error_firstn in Hm.
    destruct (Nat.ltb_spec m L) as [Hlt|_]; [|discriminate Hm].
    exact (proj2 (earlier_members_locked m s Hlt Hm Hx Hne)).
  - apply In_nth_error in Hin as [m Hm]. rewrite nth_error_skipn in Hm.
    destruct m as [|m].
    + rewrite Nat.add_0_r, Hw in Hm. injection Hm as <-. contradiction.
    + apply (Hlast (L + S m)%nat s); [lia | exact Hm | exact Hx].
Qed.

Lemma last_member_result :
  nth_error (mapInPlace evaluateRequirement [] rs) L
  = Some (set_isDisabled w (Some false)).
Proof.
  destruct (mapInPlace_nth_image evaluateRequirement rs [] L w Hw)
    as [sibs Hsome].
  destruct (mapInPlace_nth _ _ _ _ _ Hsome) as (r & Hr & Heq).
  rewrite Hw in Hr. injection Hr as <-. simpl in Heq.
  rewrite Hsome, Heq, (evaluateRequirement_free _ _ last_member_free), Hbool.
  unfold afterXor. rewrite Hlabel. reflexivity.
Qed.

(** The members of the group after it are locked by its result. *)
Lemma later_members_locked (k : nat) (r' : Requirement) :
  (L < k)%nat ->
  nth_error (mapInPlace evaluateRequirement [] rs) k = Some r' ->
  xorGroup r' = xorGroup w -> id r' <> id w ->
  isDisabled r' = Some true /\ isFulfilled r' = false.
Proof.
  intros Hk Hr' Hx Hid.
  destruct (mapInPlace_nth _ _ _ _ _ Hr') as (r & _ & ->). simpl in *.
  set (sibs := firstn k (mapInPlace evaluateRequirement [] rs) ++ skipn k rs)
    in *.
  destruct (evaluateRequirement_static r sibs) as (Hi & _ & _ & _ & _ & Hxr & _).
  assert (Hin : In (set_isDisabled w (Some false)) sibs).
  { apply in_or_app. left. apply nth_error_In with (n := L).
    rewrite nth_error_firstn.
    destruct (Nat.ltb_spec L k); [exact last_member_result | lia]. }
  rewrite (evaluateRequirement_locked r sibs).
  - split; reflexivity.
  - apply (xorLockedBy_true r (set_isDisabled w (Some false)) sibs);
      [| exact Hin | | |].
    + rewrite <- Hxr, Hx. exact Hlabel.
    + simpl. congruence.
    + simpl. congruence.
    + exact Hdone.
Qed.
End LastFulfilledWins.

(** X24. The tie-break of an XOR group is array order: if the last
    top-level member of a group that is fulfilled when the pass starts is a
    BOOLEAN node, it comes out fulfilled and enabled, and every other
    top-level node of the group with a different identifier comes out
    disabled and unfulfilled, whatever it held before. *)
Theorem evaluateTaskState_last_fulfilled_wins (t : Task) (now : Z) (L : nat)
  (w : Requirement) :
  status t <> IDLE -> status t <> LOCKED ->
  nth_error (requirements t) L = Some w ->
  type w = BOOLEAN ->
  truthyString (xorGroup w) = true ->
  isFulfilled w = true ->
  (forall m r, (L < m)%nat -> nth_error (requirements t) m = Some r ->
               xorGroup r = xorGroup w -> isFulfilled r = false) ->
  let out := requirements (evaluateTaskState t now) in
  nth_error out L = Some (set_isDisabled w (Some false))
  /\ forall k r',
       k <> L -> nth_error out k = Some r' ->
       xorGroup r' = xorGroup w -> id r' <> id w ->
       isDisabled r' = Some true /\ isFulfilled r' = false.
Proof.
  intros Hidle Hlocked Hw Hbool Hlabel Hdone Hlast. cbv zeta.
  assert (Hreq : requirements (evaluateTaskState t now)
                 = mapInPlace evaluateRequirement [] (requirements t)).
  { rewrite evaluateTaskState_requirements.
    destruct (status t); try reflexivity; contradiction. }
  rewrite Hreq. split.
  - apply last_member_result; assumption.
  - intros k r' Hk Hr' Hx Hid.
    destruct (Nat.lt_total k L) as [Hlt|[Heq|Hgt]]; [|contradiction|].
    + apply (earlier_members_locked (requirements t) L w Hw Hlabel Hdone
               k r' Hlt Hr' Hx Hid).
    + apply (later_members_locked (requirements t) L w Hw Hbool Hlabel Hdone
               Hlast k r' Hgt Hr' Hx Hid).
Qed.

Lemma evaluateTaskState_last_fulfilled_wins_witness :
  let out := requirements (evaluateTaskState cardioTask 1000) in
  nth_error out 1%nat
  = Some (booleanReq "swim" (Some "cardio") true (Some false))
  /\ forall k r',
       k <> 1%nat -> nth_error out k = Some r' ->
       xorGroup r' = Some "cardio" -> id r' <> "swim" ->
       isDisabled r' = Some true /\ isFulfilled r' = false.
Proof.
  apply (evaluateTaskState_last_fulfilled_wins cardioTask 1000 1%nat
           (booleanReq "swim" (Some "cardio") true None));
    try solve [reflexivity | discriminate].
  intros m r Hm Hr Hx.
  destruct m as [|[|[|m]]]; try lia; simpl in Hr.
  - injection Hr as <-. discriminate Hx.
  - destruct m; discriminate Hr.
Defined.

(** ** The clock of the task runner *)

Lemma clockPrintsWell_below_100_minutes :
  forallb clockPrintsWell (seq 0 (Z.to_nat 6000)) = true.
Proof. vm_compute. reflexivity. Qed.

Lemma formatTime_well (seconds : Z) :
  0 <= seconds < 6000 ->
  clockPrintsWell (Z.to_nat seconds) = true.
Proof.
  intro H.
  apply (proj1 (forallb_forall _ _) clockPrintsWell_below_100_minutes).
  apply in_seq. lia.
Qed.

(** X25. Below one hundred minutes [formatTime] prints exactly five
    characters with the colon in the middle, and two different numbers of
    seconds never print the same. *)
Theorem formatTime_clock (a b : Z) :
  0 <= a < 6000 -> 0 <= b < 6000 ->
  String.length (formatTime a) = 5%nat
  /\ String.get 2 (formatTime a) = Some ":"%char
  /\ (formatTime a = formatTime b -> a = b).
Proof.
  intros Ha Hb.
  pose proof (formatTime_well a Ha) as Wa.
  pose proof (formatTime_well b Hb) as Wb.
  unfold clockPrintsWell in Wa, Wb.
  rewrite Z2Nat.id in Wa, Wb by lia.
  apply andb_true_iff in Wa as [Wa Ra]. apply andb_true_iff in Wa as [La Ca].
  apply andb_true_iff in Wb as [_ Rb].
  apply Z.eqb_eq in Ra, Rb. apply Nat.eqb_eq in La.
  split; [exact La|]. split.
  - destruct (String.get 2 (formatTime a)) as [c|]; [|discriminate Ca].
    apply Ascii.eqb_eq in Ca. now subst.
  - intro Heq. rewrite <- Ra, <- Rb, Heq. reflexivity.
Qed.

Lemma formatTime_clock_witness :
  String.length (formatTime 61) = 5%nat
  /\ String.get 2 (formatTime 61) = Some ":"%char
  /\ (formatTime 61 = formatTime 75 -> 61 = 75).
Proof.
  apply (formatTime_clock 61 75); lia.
Defined.

Example formatTime_samples :
  formatTime 0 = "00:00" /\ formatTime 61 = "01:01"
  /\ formatTime 5999 = "99:59" /\ formatTime 6000 = "100:00"
  /\ formatTime (-1) = "-1:-1".
Proof. repeat split; reflexivity. Qed.

(** ** Idempotence when XOR labels sit on BOOLEAN nodes *)

Lemma mapInPlace_fixed (f : Requirement -> list Requirement -> Requirement)
  (todo : list Requirement) :
  forall done,
    (forall r, In r todo -> f r (done ++ todo) = r) ->
    mapInPlace f done todo = todo.
Proof.
  induction todo as [|r rest IH]; intros done H; simpl; [reflexivity|].
  rewrite (H r (or_introl eq_refl)). f_equal.
  apply IH. intros x Hx. rewrite <- app_assoc. simpl.
  apply H. now right.
Qed.

Lemma xorLockedBy_static (a b : Requirement) (sibs : list Requirement) :
  id a = id b -> xorGroup a = xorGroup b ->
  xorLockedBy a sibs = xorLockedBy b sibs.
Proof.
  intros Hi Hx. unfold xorLockedBy, xorWinner. rewrite Hx. f_equal.
  assert (Hp : forall s, isXorWinnerOver a s = isXorWinnerOver b s)
    by (intro s; unfold isXorWinnerOver; now rewrite Hi, Hx).
  induction sibs as [|s rest IH]; [reflexivity|].
  simpl. rewrite Hp. destruct (isXorWinnerOver b s); [reflexivity|exact IH].
Qed.

(** Either no element passes a test, or some element is the last to pass. *)
Lemma last_passing (p : Requirement -> bool) (rs : list Requirement) :
  (forall r, In r rs -> p r = false)
  \/ exists L w,
       nth_error rs L = Some w /\ p w = true
       /\ forall m r, (L < m)%nat -> nth_error rs m = Some r -> p r = false.
Proof.
  induction rs as [|x rest IH]; [left; intros r []|].
  destruct IH as [Hnone|(L & w & Hw & Hp & Hlast)].
  - destruct (p x) eqn:Hx.
    + right. exists 0%nat, x. split; [reflexivity|]. split; [exact Hx|].
      intros [|m] r Hm Hr; [lia|]. simpl in Hr.
      apply Hnone. exact (nth_error_In _ _ Hr).
    + left. intros r [<-|Hr]; [exact Hx | now apply Hnone].
  - right. exists (S L), w. split; [exact Hw|]. split; [exact Hp|].
    intros [|m] r Hm Hr; [lia|]. simpl in Hr.
    apply (Hlast m r); [lia | exact Hr].
Qed.

Lemma distinct_positions (rs : list Requirement) (i j : nat)
  (a b : Requirement) :
  NoDup (map id rs) ->
  nth_error rs i = Some a -> nth_error rs j = Some b -> i <> j ->
  id a <> id b.
Proof.
  intros Hnd Ha Hb Hij Heq. apply Hij.
  apply (proj1 (NoDup_nth_error (map id rs)) Hnd).
  - rewrite length_map. apply nth_error_Some. rewrite Ha. discriminate.
  - rewrite !nth_error_map, Ha, Hb. simpl. now rewrite Heq.
Qed.

Lemma mapInPlace_ids (rs : list Requirement) :
  map id (mapInPlace evaluateRequirement [] rs) = map id rs.
Proof.
  apply mapInPlace_map, Forall_forall. intros r _ sibs.
  apply (evaluateRequirement_static r sibs).
Qed.

Lemma evaluateRequirement_boolean_not_raised (r : Requirement)
  (sibs : list Requirement) :
  type r = BOOLEAN -> isFulfilled r = false ->
  isFulfilled (evaluateRequirement r sibs) = false.
Proof.
  intros Hty Hf. destruct (xorLockedBy r sibs) eqn:Hl.
  - rewrite (evaluateRequirement_locked _ _ Hl). reflexivity.
  - rewrite (evaluateRequirement_free _ _ Hl), Hty.
    unfold afterXor. destruct (truthyString (xorGroup r)); exact Hf.
Qed.

Lemma In_firstn_skipn {A : Type} (n : nat) (l : list A) (x : A) :
  In x (firstn n l) \/ In x (skipn n l) -> In x l.
Proof.
  intro H. rewrite <- (firstn_skipn n l). apply in_or_app. exact H.
Qed.

Section OnePassSettles.
Variable rs : list Requirement.
Hypothesis Hbool :
  forall r, In r rs -> truthyString (xorGroup r) = true -> type r = BOOLEAN.
Hypothesis Hids : NoDup (map id rs).

(** The lock a labelled node meets in a second pass, over the finished
    array, is the lock it met in the first. *)
Lemma second_pass_same_lock (j : nat) (rj : Requirement) :
  nth_error rs j = Some rj ->
  truthyString (xorGroup rj) = true ->
  xorLockedBy rj (mapInPlace evaluateRequirement [] rs)
  = xorLockedBy rj
      (firstn j (mapInPlace evaluateRequirement [] rs) ++ skipn j rs).
Proof.
  intros Hj Hlab.
  assert (Hids' : NoDup (map id (mapInPlace evaluateRequirement [] rs)))
    by (rewrite mapInPlace_ids; exact Hids).
  assert (Hmember : forall s, strictEqString (xorGroup s) (xorGroup rj) = true ->
                              truthyString (xorGroup s) = true).
  { intros s Hs. apply strictEqString_eq in Hs. now rewrite Hs. }
  destruct (last_passing (fulfilledMember rj) rs)
    as [Hnone|(L & w & Hw & Hp & Hlast)].
  - (* no member is fulfilled when the pass starts: none ever is *)
    assert (Hnone' : forall s, In s (mapInPlace evaluateRequirement [] rs) -> fulfilledMember rj s = false).
    { intros s Hs. apply In_nth_error in Hs as [m Hm].
      destruct (mapInPlace_nth _ _ _ _ _ Hm) as (r & Hr & ->).
      simpl.
      match goal with
      | |- context [evaluateRequirement r ?sibs] =>
          destruct (evaluateRequirement_static r sibs)
            as (_ & _ & _ & _ & _ & Hx & _)
      end.
      unfold fulfilledMember. rewrite Hx.
      destruct (strictEqString (xorGroup r) (xorGroup rj)) eqn:Hm';
        [|reflexivity].
      simpl. pose proof (nth_error_In _ _ Hr) as Hin.
      apply evaluateRequirement_boolean_not_raised.
      - apply Hbool; [exact Hin | now apply Hmember].
      - pose proof (Hnone r Hin) as Hf. unfold fulfilledMember in Hf.
        now rewrite Hm' in Hf. }
    assert (Hno : forall l, (forall s, In s l -> fulfilledMember rj s = false) ->
                            xorLockedBy rj l = false).
    { intros l Hl. unfold xorLockedBy. rewrite xorWinner_none;
        [apply andb_false_r|].
      intros s Hs. pose proof (Hl s Hs) as Hf.
      unfold isXorWinnerOver, fulfilledMember in *.
      rewrite <- andb_assoc, Hf. apply andb_false_r. }
    rewrite !Hno; [reflexivity | | exact Hnone'].
    intros s Hs. apply in_app_or in Hs as [Hs|Hs].
    + apply Hnone'. apply (In_firstn_skipn j). now left.
    + apply Hnone. apply (In_firstn_skipn j). now right.
  - (* the last fulfilled member wins *)
    unfold fulfilledMember in Hp. apply andb_true_iff in Hp as [Hwx Hwf].
    pose proof (Hmember w Hwx) as Hwlab.
    apply strictEqString_eq in Hwx.
    assert (Hwbool : type w = BOOLEAN)
      by (apply Hbool; [exact (nth_error_In _ _ Hw) | exact Hwlab]).
    assert (Hlast' : forall m r, (L < m)%nat -> nth_error rs m = Some r ->
                                 xorGroup r = xorGroup w -> isFulfilled r = false).
    { intros m r Hm Hr Hx. pose proof (Hlast m r Hm Hr) as Hf.
      unfold fulfilledMember in Hf. rewrite Hx, Hwx in Hf.
      destruct (xorGroup rj) as [g|]; [|discriminate Hlab].
      simpl in Hf. now rewrite String.eqb_refl in Hf. }
    pose proof (last_member_result rs L w Hw Hwbool Hwlab Hwf Hlast') as Hres.
    destruct (Nat.eq_dec j L) as [->|Hne].
    + (* the node is the winner itself: free in both passes *)
      rewrite Hw in Hj. injection Hj as <-.
      rewrite (last_member_free rs L w Hw Hwlab Hwf Hlast').
      unfold xorLockedBy. rewrite xorWinner_none; [apply andb_false_r|].
      intros s Hs. unfold isXorWinnerOver.
      destruct (String.eqb_spec (id s) (id w)) as [Heq|Hid]; [reflexivity|].
      destruct (strictEqString (xorGroup s) (xorGroup w)) eqn:Hx;
        [|reflexivity].
      apply strictEqString_eq in Hx. simpl.
      apply In_nth_error in Hs as [m Hm].
      destruct (Nat.lt_total m L) as [Hlt|[->|Hgt]].
      * exact (proj2 (earlier_members_locked rs L w Hw Hwlab Hwf
                        m s Hlt Hm Hx Hid)).
      * rewrite Hres in Hm.
        injection Hm as <-. simpl in Hid. contradiction.
      * exact (proj2 (later_members_locked rs L w Hw Hwbool Hwlab Hwf Hlast'
                        m s Hgt Hm Hx Hid)).
    + (* another member: locked in both passes *)
      assert (Hidj : id rj <> id w)
        by (apply (distinct_positions rs j L); assumption).
      assert (Hsecond : xorLockedBy rj (mapInPlace evaluateRequirement [] rs) = true).
      { apply (xorLockedBy_true rj (set_isDisabled w (Some false)) (mapInPlace evaluateRequirement [] rs)).
        - exact Hlab.
        - exact (nth_error_In _ _ Hres).
        - simpl. congruence.
        - simpl. congruence.
        - exact Hwf. }
      rewrite Hsecond. symmetry.
      destruct (mapInPlace_nth_image evaluateRequirement rs [] j rj Hj)
        as [sibs Hsome].
      destruct (mapInPlace_nth _ _ _ _ _ Hsome) as (r0 & Hr0 & Heq).
      rewrite Hj in Hr0. injection Hr0 as <-. simpl in Heq.
      destruct (evaluateRequirement_static rj sibs)
        as (Hi & _ & _ & _ & _ & Hx & _).
      assert (Hflags : isDisabled (evaluateRequirement rj sibs) = Some true).
      { destruct (Nat.lt_total j L) as [Hlt|[Heq'|Hgt]]; [|contradiction|].
        - apply (earlier_members_locked rs L w Hw Hwlab Hwf j _ Hlt Hsome);
            congruence.
        - apply (later_members_locked rs L w Hw Hwbool Hwlab Hwf Hlast'
                   j _ Hgt Hsome); congruence. }
      rewrite Heq in Hflags.
      destruct (xorLockedBy rj (firstn j (mapInPlace evaluateRequirement [] rs) ++ skipn j rs)) eqn:Hfirst;
        [reflexivity|].
      rewrite (evaluateRequirement_free _ _ Hfirst) in Hflags.
      rewrite (Hbool rj (nth_error_In _ _ Hj) Hlab) in Hflags.
      unfold afterXor in Hflags. rewrite Hlab in Hflags. discriminate Hflags.
Qed.
End OnePassSettles.

Lemma second_pass_list (rs : list Requirement) :
  (forall r, In r rs -> truthyString (xorGroup r) = true -> type r = BOOLEAN) ->
  NoDup (map id rs) ->
  Forall (fun c => forall s1 s2,
              xorLockedBy c s2 = xorLockedBy c s1 ->
              evaluateRequirement (evaluateRequirement c s1) s2
              = evaluateRequirement c s1) rs ->
  mapInPlace evaluateRequirement [] (mapInPlace evaluateRequirement [] rs)
  = mapInPlace evaluateRequirement [] rs.
Proof.
  intros Hbool Hids Hnodes. apply mapInPlace_fixed. intros r' Hin. simpl.
  apply In_nth_error in Hin as [j Hj].
  destruct (mapInPlace_nth _ _ _ _ _ Hj) as (r & Hr & ->). simpl.
  apply (proj1 (Forall_forall _ _) Hnodes r (nth_error_In _ _ Hr)).
  destruct (truthyString (xorGroup r)) eqn:Hlab.
  - apply second_pass_same_lock; assumption.
  - unfold xorLockedBy. rewrite Hlab. reflexivity.
Qed.

Lemma listsBelow_eq (r : Requirement) :
  listsBelow r =
  match children r with
  | Some cs => cs :: flat_map listsBelow cs
  | None => []
  end.
Proof. destruct r; reflexivity. Qed.

Lemma second_pass_node (r : Requirement) :
  (forall n, In n (nodesOf r) ->
             truthyString (xorGroup n) = true -> type n = BOOLEAN) ->
  (forall sibs, In sibs (listsBelow r) -> NoDup (map id sibs)) ->
  forall s1 s2,
    xorLockedBy r s2 = xorLockedBy r s1 ->
    evaluateRequirement (evaluateRequirement r s1) s2
    = evaluateRequirement r s1.
Proof.
  induction r as [r IH] using Requirement_ind.
  intros Hbool Hids s1 s2 Hsame.
  destruct (evaluateRequirement_static r s1)
    as (Hi & Hty' & _ & _ & _ & Hx & _).
  assert (Hlock2 : xorLockedBy (evaluateRequirement r s1) s2
                   = xorLockedBy r s1)
    by (rewrite (xorLockedBy_static _ r s2 Hi Hx); exact Hsame).
  assert (Hself : In r (nodesOf r)) by (rewrite nodesOf_eq; now left).
  destruct (xorLockedBy r s1) eqn:Hl.
  - rewrite (evaluateRequirement_locked _ s2 Hlock2),
      (evaluateRequirement_locked _ s1 Hl). reflexivity.
  - rewrite (evaluateRequirement_free _ s2 Hlock2), Hty'.
    rewrite (evaluateRequirement_free _ s1 Hl).
    destruct (truthyString (xorGroup r)) eqn:Hlab.
    + rewrite (Hbool r Hself Hlab). unfold afterXor. simpl. rewrite Hlab.
      simpl. rewrite Hlab. reflexivity.
    + assert (Hax : forall x, xorGroup x = xorGroup r -> afterXor x = x)
        by (intros x Hxx; unfold afterXor; rewrite Hxx, Hlab; reflexivity).
      rewrite (Hax r eq_refl).
      destruct (type r) eqn:Hty.
      * apply Hax. reflexivity.
      * rewrite Hax by (apply (evaluateNumeric_static r)).
        apply evaluateNumeric_idempotent.
      * unfold childList in IH. rewrite nodesOf_eq in Hbool.
        rewrite listsBelow_eq in Hids. unfold childList in Hbool.
        destruct (children r) as [[|c cs]|] eqn:Hch.
        -- rewrite Hax by reflexivity. cbn [children set_isFulfilled].
           rewrite Hch. reflexivity.
        -- cbv zeta. rewrite Hax by reflexivity.
           cbn [children set_isFulfilled set_children].
           assert (Hidem : mapInPlace evaluateRequirement []
                             (mapInPlace evaluateRequirement [] (c :: cs))
                           = mapInPlace evaluateRequirement [] (c :: cs)).
           { apply second_pass_list.
             - intros k Hk. apply Hbool. right.
               apply in_flat_map. exists k. split; [exact Hk|].
               rewrite nodesOf_eq. now left.
             - apply Hids. now left.
             - apply Forall_forall. intros k Hk.
               apply (proj1 (Forall_forall _ _) IH k Hk).
               + intros n Hn. apply Hbool. right.
                 apply in_flat_map. exists k. split; assumption.
               + intros sibs Hs. apply Hids. right.
                 apply in_flat_map. exists k. split; assumption. }
           destruct (mapInPlace evaluateRequirement [] (c :: cs))
             as [|k ks] eqn:HK; [discriminate HK|].
           rewrite Hidem. reflexivity.
        -- rewrite Hax by reflexivity. cbn [children set_isFulfilled].
           rewrite Hch. reflexivity.
Qed.

Lemma second_pass_task (t : Task) (now1 now2 : Z) :
  mapInPlace evaluateRequirement []
    (mapInPlace evaluateRequirement [] (requirements t))
  = mapInPlace evaluateRequirement [] (requirements t) ->
  sameExceptUpdatedAt (evaluateTaskState (evaluateTaskState t now1) now2)
    (evaluateTaskState t now1).
Proof.
  intro Hidem. unfold sameExceptUpdatedAt.
  destruct t as [ti tt td st rs tl el ca ua lk cd]. cbn [requirements] in Hidem.
  unfold evaluateTaskState, cloneTask.
  cbn -[allRelevantFulfilled mapInPlace Z.leb].
  destruct (truthyNumber tl && (orDefault tl 0 <=? el)) eqn:Hov;
    destruct st; cbn -[allRelevantFulfilled mapInPlace Z.leb];
    rewrite ?Hov; cbn -[allRelevantFulfilled mapInPlace Z.leb];
    rewrite ?Hidem; try reflexivity;
    destruct (allRelevantFulfilled (mapInPlace evaluateRequirement [] rs))
      eqn:Hdone;
    cbn -[allRelevantFulfilled mapInPlace Z.leb];
    rewrite ?Hov; cbn -[allRelevantFulfilled mapInPlace Z.leb];
    rewrite ?Hidem, ?Hdone; reflexivity.
Qed.

(** X26. On a task in which every node that carries a non-empty [xorGroup]
    is a BOOLEAN node and no two siblings share an identifier, one pass
    settles XOR resolution: a second pass changes nothing but [updatedAt]. *)
Theorem evaluateTaskState_idempotent_boolean_xor (t : Task) (now1 now2 : Z) :
  labelsOnBoolean (requirements t) = true ->
  siblingIdsDistinct (requirements t) ->
  sameExceptUpdatedAt (evaluateTaskState (evaluateTaskState t now1) now2)
    (evaluateTaskState t now1).
Proof.
  intros Hlab Hids. apply second_pass_task.
  assert (Hbool : forall n, In n (allNodes (requirements t)) ->
                            truthyString (xorGroup n) = true ->
                            type n = BOOLEAN).
  { intros n Hn Hl.
    pose proof (proj1 (forallb_forall _ _) Hlab n Hn) as H.
    cbv beta in H. rewrite Hl in H. simpl in H.
    destruct (type n); solve [reflexivity | discriminate H]. }
  apply second_pass_list.
  - intros r Hr. apply Hbool. unfold allNodes. apply in_flat_map.
    exists r. split; [exact Hr|]. rewrite nodesOf_eq. now left.
  - apply Hids. now left.
  - apply Forall_forall. intros r Hr. apply second_pass_node.
    + intros n Hn. apply Hbool. unfold allNodes. apply in_flat_map.
      exists r. split; assumption.
    + intros sibs Hs. apply Hids. right. apply in_flat_map.
      exists r. split; assumption.
Qed.

Lemma evaluateTaskState_idempotent_boolean_xor_witness :
  sameExceptUpdatedAt (evaluateTaskState (evaluateTaskState mockTask 1000) 2000)
    (evaluateTaskState mockTask 1000).
Proof.
  apply (evaluateTaskState_idempotent_boolean_xor mockTask 1000 2000).
  - reflexivity.
  - intros sibs Hin. simpl in Hin.
    repeat (destruct Hin as [<-|Hin];
            [repeat constructor; simpl; intuition discriminate|]).
    destruct Hin.
Defined.

Lemma handleTaskUpdate_lookup_witness :
  activeTask (handleTaskUpdate (pauseTask runningTask) [otherTask; runningTask])
    (Some "errand")
  = activeTask [otherTask; runningTask] (Some "errand").
Proof.
  apply (proj2 (proj2 (handleTaskUpdate_lookup (pauseTask runningTask)
                         [otherTask; runningTask]))).
  discriminate.
Defined.

Lemma onDelete_lookup_witness :
  activeTask (onDelete "errand" [otherTask; runningTask]) (Some "quest")
  = activeTask [otherTask; runningTask] (Some "quest").
Proof.
  apply (proj1 (proj2 (onDelete_lookup "errand" [otherTask; runningTask]))).
  discriminate.
Defined.

(** ** The derived flags *)

(** X27. [isDisabled] after the evaluation of a node: a node with a non-empty
    [xorGroup] comes out disabled exactly when a sibling locks it or it is a
    NUMERIC node beyond its limit; a node without one comes out disabled when
    it is a NUMERIC node beyond its limit and otherwise keeps the [isDisabled]
    it carried. *)
Theorem evaluateRequirement_isDisabled (r : Requirement)
  (sibs : list Requirement) :
  let breach := RequirementType_eqb (type r) NUMERIC && limitBreached r in
  isDisabled (evaluateRequirement r sibs)
  = if truthyString (xorGroup r)
    then Some (xorLockedBy r sibs || breach)
    else if breach then Some true else isDisabled r.
Proof.
  cbv zeta. destruct (xorLockedBy r sibs) eqn:Hl.
  - rewrite (evaluateRequirement_locked _ _ Hl).
    apply andb_true_iff in Hl as [Hlab _]. rewrite Hlab. reflexivity.
  - rewrite (evaluateRequirement_free _ _ Hl). unfold afterXor, limitBreached.
    destruct r as [i ty ti de op xg cv tv ch fu di vl cd]; simpl.
    destruct ty; simpl.
    + destruct (truthyString xg); reflexivity.
    + unfold evaluateNumeric.
      destruct (truthyString xg); simpl;
        (destruct vl as [limit|]; simpl;
         [destruct (limit <? orDefault cv 0)|]); reflexivity.
    + destruct ch as [[|c cs]|]; destruct (truthyString xg); reflexivity.
Qed.

(** X28. Counting up never loses fulfilment short of the limit, and never
    recovers from a breach: for a NUMERIC node that no sibling locks, raising
    [currentValue] keeps a fulfilled node fulfilled as long as the new value
    does not exceed [valueLimit], and keeps a node beyond its limit
    unfulfilled and disabled. *)
Theorem evaluateRequirement_numeric_monotone (r : Requirement)
  (sibs : list Requirement) (v : Z) :
  type r = NUMERIC -> xorLockedBy r sibs = false ->
  orDefault (currentValue r) 0 <= v ->
  let r' := set_currentValue r (Some v) in
  (isFulfilled (evaluateRequirement r sibs) = true ->
   limitBreached r' = false ->
   isFulfilled (evaluateRequirement r' sibs) = true)
  /\ (limitBreached r = true ->
      isFulfilled (evaluateRequirement r' sibs) = false
      /\ isDisabled (evaluateRequirement r' sibs) = Some true).
Proof.
  intros Hty Hfree Hle. cbv zeta.
  assert (Hfree' : xorLockedBy (set_currentValue r (Some v)) sibs = false)
    by exact Hfree.
  rewrite (evaluateRequirement_free _ _ Hfree'),
    (evaluateRequirement_free _ _ Hfree).
  cbn [type set_currentValue]. rewrite Hty.
  unfold afterXor, limitBreached, evaluateNumeric.
  destruct r as [i ty ti de op xg cv tv ch fu di vl cd]; simpl in *.
  destruct (truthyString xg); simpl;
    (destruct vl as [limit|]; simpl;
     [destruct (Z.ltb_spec limit (orDefault cv 0));
      destruct (Z.ltb_spec limit v); simpl|]);
    (split; [intros H1 H2 | intros H1]);
    try discriminate; try lia; try (split; reflexivity);
    try (apply Z.leb_le; apply Z.leb_le in H1; lia).
Qed.

Lemma evaluateRequirement_numeric_monotone_witness :
  isFulfilled (evaluateRequirement (set_currentValue doneCounter (Some 5))
                 [doneCounter]) = true.
Proof.
  apply (proj1 (evaluateRequirement_numeric_monotone doneCounter [doneCounter]
                  5 eq_refl eq_refl ltac:(simpl; lia)));
    reflexivity.
Defined.

Lemma settledNode_locked (r : Requirement) :
  truthyString (xorGroup r) = true ->
  settledNode (set_isFulfilled (set_isDisabled r (Some true)) false) = true.
Proof.
  intro Hlab. unfold settledNode, xorLocked. simpl. rewrite Hlab. reflexivity.
Qed.

(** The root of an evaluated node carries the derived fulfilment. *)
Lemma evaluateRequirement_settled_root (r : Requirement)
  (sibs : list Requirement) :
  settledNode (evaluateRequirement r sibs) = true.
Proof.
  destruct (xorLockedBy r sibs) eqn:Hl.
  - rewrite (evaluateRequirement_locked _ _ Hl).
    apply andb_true_iff in Hl as [Hlab _]. now apply settledNode_locked.
  - destruct (type r) eqn:Hty.
    + rewrite (evaluateRequirement_free _ _ Hl), Hty.
      unfold settledNode, derivedFulfilment.
      destruct (afterXor_static r) as (_ & Hty' & _). rewrite Hty', Hty.
      rewrite Bool.eqb_reflx. apply orb_true_r.
    + rewrite (evaluateRequirement_free _ _ Hl), Hty.
      unfold settledNode, derivedFulfilment, xorLocked, afterXor,
        limitBreached, evaluateNumeric.
      destruct r as [i ty ti de op xg cv tv ch fu di vl cd]; simpl in *.
      subst ty.
      destruct (truthyString xg) eqn:Hlab; simpl;
        (destruct vl as [limit|]; simpl;
         [destruct (limit <? orDefault cv 0) eqn:Hlim; simpl;
          rewrite ?Hlab, ?Hlim|]); simpl;
        rewrite ?Bool.eqb_reflx, ?orb_true_r; reflexivity.
    + destruct (childList r) as [|c cs] eqn:Hkids.
      * rewrite (evaluateRequirement_group_empty _ _ Hty Hl Hkids).
        unfold settledNode, derivedFulfilment, childList. simpl.
        destruct (afterXor_static r) as (_ & Hty' & _).
        rewrite Hty', Hty, afterXor_children.
        unfold childList in Hkids. rewrite Hkids. apply orb_true_r.
      * assert (Hch : children r = Some (c :: cs)).
        { unfold childList in Hkids. destruct (children r); [|discriminate].
          now f_equal. }
        rewrite (evaluateRequirement_group_kids _ _ _ Hty Hl Hch)
          by discriminate.
        unfold settledNode, derivedFulfilment, childList. simpl.
        destruct (afterXor_static r) as (_ & Hty' & _).
        rewrite Hty', Hty, Bool.eqb_reflx. apply orb_true_r.
Qed.

Lemma evaluateRequirement_settled_below (r : Requirement) :
  forall sibs,
    Forall (fun l => forallb settledNode l = true)
      (walkedBelow (evaluateRequirement r sibs)).
Proof.
  induction r as [r IH] using Requirement_ind. intro sibs.
  rewrite walkedBelow_eq.
  destruct (evaluateRequirement_static r sibs) as (_ & Hty' & _).
  rewrite Hty'.
  destruct (type r) eqn:Hty; try constructor.
  destruct (xorLockedBy r sibs) eqn:Hl.
  - (* a locked group comes out labelled and disabled *)
    rewrite (evaluateRequirement_locked _ _ Hl).
    apply andb_true_iff in Hl as [Hlab _].
    unfold xorLocked. simpl. rewrite Hlab. constructor.
  - destruct (xorLocked (evaluateRequirement r sibs)); [constructor|].
    destruct (childList r) as [|c cs] eqn:Hkids.
    + rewrite (evaluateRequirement_group_empty _ _ Hty Hl Hkids). simpl.
      rewrite afterXor_children. unfold childList in Hkids.
      destruct (children r) as [l|]; [subst l|constructor].
      simpl. constructor; [reflexivity | constructor].
    + assert (Hch : children r = Some (c :: cs)).
      { unfold childList in Hkids. destruct (children r); [|discriminate].
        now f_equal. }
      rewrite (evaluateRequirement_group_kids _ _ _ Hty Hl Hch)
        by discriminate.
      cbn [children set_isFulfilled set_children].
      constructor.
      * apply forallb_forall. intros k Hk.
        apply In_nth_error in Hk as [m Hm].
        destruct (mapInPlace_nth _ _ _ _ _ Hm) as (r0 & _ & ->).
        apply evaluateRequirement_settled_root.
      * apply mapInPlace_flat_map. exact IH.
Qed.

(** X29. After a pass over a task that is neither IDLE nor LOCKED, the
    fulfilment of every node the pass reached, at every depth, is the derived
    one unless the node came out labelled and disabled: a NUMERIC node is
    fulfilled exactly when its value has reached the target without exceeding
    the limit, and a GROUP node exactly when all its non-optional children
    (as returned) are fulfilled. *)
Theorem evaluateTaskState_fulfilment_derived (t : Task) (now : Z) :
  status t <> IDLE -> status t <> LOCKED ->
  forall sibs r,
    In sibs (walkedLists (requirements (evaluateTaskState t now))) ->
    In r sibs ->
    xorLocked r = false ->
    isFulfilled r = derivedFulfilment r.
Proof.
  intros Hidle Hlocked sibs r Hs Hr Hfree.
  assert (Hreq : requirements (evaluateTaskState t now)
                 = mapInPlace evaluateRequirement [] (requirements t)).
  { rewrite evaluateTaskState_requirements.
    destruct (status t); try reflexivity; contradiction. }
  rewrite Hreq in Hs.
  assert (Hall : Forall (fun l => forallb settledNode l = true)
                   (walkedLists
                      (mapInPlace evaluateRequirement [] (requirements t)))).
  { unfold walkedLists. constructor.
    - apply forallb_forall. intros k Hk.
      apply In_nth_error in Hk as [m Hm].
      destruct (mapInPlace_nth _ _ _ _ _ Hm) as (r0 & _ & ->).
      apply evaluateRequirement_settled_root.
    - apply mapInPlace_flat_map, Forall_forall. intros k _.
      apply evaluateRequirement_settled_below. }
  pose proof (proj1 (Forall_forall _ _) Hall sibs Hs) as Hl.
  pose proof (proj1 (forallb_forall _ _) Hl r Hr) as Hn.
  unfold settledNode in Hn. rewrite Hfree in Hn. simpl in Hn.
  now apply Bool.eqb_prop.
Qed.

Lemma evaluateTaskState_fulfilment_derived_witness :
  isFulfilled
    (numericReq "pushups" (Some "arms") (Some 20) (Some 20) (Some 25) true
       (Some false))
  = derivedFulfilment
      (numericReq "pushups" (Some "arms") (Some 20) (Some 20) (Some 25) true
         (Some false)).
Proof.
  apply (evaluateTaskState_fulfilment_derived cardioTask 1000
           ltac:(discriminate) ltac:(discriminate)
           [ numericReq "pushups" (Some "arms") (Some 20) (Some 20) (Some 25)
               true (Some false);
             numericReq "dips" (Some "arms") (Some 31) (Some 30) (Some 30)
               false (Some true) ]).
  - vm_compute. right. left. reflexivity.
  - left. reflexivity.
  - reflexivity.
Defined.
